(** * The development worker of waku: message protocol and handlers

    A shallow embedding of [packages/waku/src/lib/handlers/dev-worker-impl.ts].
    The worker receives request messages on one port, runs [handleRender] or
    [handleGetSsrConfig] for each and posts tagged response messages back.

    Object literals built by the worker ([{ id, type: 'start', ... }]) are
    finite maps from property names to JavaScript values; the spread
    [...ssrConfig] is a right-biased union.  The request context is an object
    that lives in the worker's heap and is shared by reference with the render
    pipeline.  An async handler is the list of effects it performs, in order,
    each effect being what runs between two awaits; concurrent handlers
    interleave their lists.  The port and [deepFreeze] may throw inside the
    [try] blocks of the handlers, which sends control to their [catch]
    blocks. *)

From Stdlib Require Import ZArith List Lia.
From stdpp Require Import base option list gmap strings.
Import ListNotations.
Local Open Scope string_scope.
Local Open Scope list_scope.

(** ** JavaScript values *)

(** A value that crosses the port, is thrown, or sits in the context map.
    An object carries its [Object.isFrozen] flag and its own properties in
    insertion order. *)
#[warnings="-register-all"]
Inductive jsval : Type :=
| JUndef
| JBool (b : bool)
| JNum (n : Z)
| JStr (s : string)
| JStream (h : nat)
| JObj (frozen : bool) (props : list (string * jsval)).

(** Property lookup in an own-property list: the first binding of [k]. *)
Fixpoint assoc (k : string) (ps : list (string * jsval)) : option jsval :=
  match ps with
  | [] => None
  | (k', v) :: ps' => if String.eqb k k' then Some v else assoc k ps'
  end.

(** [x.k] for reading: [undefined] on a missing property or a primitive. *)
Definition get_prop (x : jsval) (k : string) : jsval :=
  match x with
  | JObj _ ps => default JUndef (assoc k ps)
  | _ => JUndef
  end.

(** [k in x], for own properties. *)
Definition has_prop (x : jsval) (k : string) : bool :=
  match x with
  | JObj _ ps => bool_decide (is_Some (assoc k ps))
  | _ => false
  end.

(** Replace the binding of [k], or append it when [k] is new. *)
Fixpoint put (k : string) (v : jsval) (ps : list (string * jsval))
  : list (string * jsval) :=
  match ps with
  | [] => [(k, v)]
  | (k', v') :: ps' =>
      if String.eqb k k' then (k, v) :: ps' else (k', v') :: put k v ps'
  end.

(** Remove every binding of [k]. *)
Fixpoint del (k : string) (ps : list (string * jsval))
  : list (string * jsval) :=
  match ps with
  | [] => []
  | (k', v') :: ps' =>
      if String.eqb k k' then del k ps' else (k', v') :: del k ps'
  end.

(** Modelled from the spec: [deepFreeze] of [../renderers/utils.js], which is
    not among the sources.  The spec says it makes the context map immutable,
    deeply: the object and every object reachable through its properties is
    frozen; a primitive is left as it is. *)
Fixpoint deepFreeze (x : jsval) : jsval :=
  match x with
  | JObj _ ps => JObj true (map (fun kv => let '(k, v) := kv in (k, deepFreeze v)) ps)
  | _ => x
  end.

(** A mutation of one object: [o.k = v] or [delete o.k]. *)
Inductive mutation : Type :=
| Assign (k : string) (v : jsval)
| Delete (k : string).

(** The mutation applied to the object itself.  The module is an ES module,
    hence strict code: on a frozen object, and on a primitive, the mutation
    throws a [TypeError] ([None]) and changes nothing. *)
Definition mutate_here (m : mutation) (x : jsval) : option jsval :=
  match x with
  | JObj false ps =>
      match m with
      | Assign k v => Some (JObj false (put k v ps))
      | Delete k => Some (JObj false (del k ps))
      end
  | _ => None
  end.

(** Rebuild the property list with the value under [k] replaced by what [f]
    returns for it; [None] when [k] is missing or [f] fails. *)
Fixpoint update_at (k : string) (f : jsval -> option jsval)
    (ps : list (string * jsval)) : option (list (string * jsval)) :=
  match ps with
  | [] => None
  | (k', v') :: ps' =>
      if String.eqb k k'
      then match f v' with Some w => Some ((k', w) :: ps') | None => None end
      else match update_at k f ps' with
           | Some r => Some ((k', v') :: r)
           | None => None
           end
  end.

(** [x.p1.p2...pn] followed by the mutation: walking the path only reads, so
    it goes through frozen objects; the mutation at the end is what may be
    refused.  [None] is a thrown [TypeError]. *)
Fixpoint mutate_at (path : list string) (m : mutation) (x : jsval)
  : option jsval :=
  match path with
  | [] => mutate_here m x
  | k :: path' =>
      match x with
      | JObj fr ps =>
          match update_at k (mutate_at path' m) ps with
          | Some ps' => Some (JObj fr ps')
          | None => None
          end
      | _ => None
      end
  end.

(** ** Settled promises and the collaborators of the worker *)

(** What an awaited promise settles to: a value, or a thrown value. *)
Inductive settled (A : Type) : Type :=
| Fulfilled (a : A)
| Rejected (e : jsval).
Arguments Fulfilled {A} a.
Arguments Rejected {A} e.

(** The two fields of [ResolvedConfig] the worker reads. *)
Record ResolvedConfig : Type := {
  srcDir : string;
  entriesJs : string
}.

(** What the worker uses of a Vite dev server. *)
Record ViteDevServer : Type := {
  config_root : string;
  ws_close : settled unit;
  ssrLoadModule : string -> settled jsval
}.

(** A location in the worker's heap: the identity of an object. *)
Abbreviation loc := nat.

(** An inbound message.  [MessageReq] is a union discriminated by [type]; the
    record has the fields of both members, and [type] is whatever string the
    host sent. *)
Record MessageReq : Type := {
  mesg_id : jsval;
  mesg_type : string;
  config : ResolvedConfig;
  input : string;
  searchParamsString : string;
  method : string;
  context : loc;
  stream : jsval;
  contentType : jsval;
  hasModuleIdCallback : bool;
  pathname : string
}.

(** [new URLSearchParams(s)], kept as the string it was built from. *)
Definition URLSearchParams (s : string) : string := s.

(** The argument object of [renderRsc].  [arg_moduleIdCallback] tells whether
    a callback was passed or [undefined]. *)
Record RenderArgs : Type := {
  arg_config : ResolvedConfig;
  arg_input : string;
  arg_searchParams : string;
  arg_method : string;
  arg_context : loc;
  arg_body : jsval;
  arg_contentType : jsval;
  arg_moduleIdCallback : bool;
  arg_isDev : bool;
  arg_customImport : string -> settled jsval;
  arg_entries : jsval
}.

(** What the render pipeline does while it is awaited. *)
Inductive pipeline_action : Type :=
| Report (moduleId : string)
| Write (path : list string) (m : mutation).

(** Modelled from the spec: [renderRsc] of [../renderers/rsc-renderer.js],
    which is not among the sources.  The spec consumes it as a function from a
    request to a stream or a failure; while it runs it may mutate the context
    map and may report module identifiers, zero or many times, at any point
    before the stream starts. *)
Record RenderRun : Type := {
  actions : list pipeline_action;
  outcome : settled jsval
}.

(** The argument object of [getSsrConfig]. *)
Record SsrArgs : Type := {
  ssr_config : ResolvedConfig;
  ssr_pathname : string;
  ssr_searchParams : string;
  ssr_isDev : bool;
  ssr_entries : jsval
}.

(** The collaborators the module imports, and the port.  [getSsrConfig]
    settles to [Some fields] for a config object and to [None] for [null] or
    [undefined].

    [renderRsc_later] is what the pipeline still does once the promise of
    [renderRsc] has settled, while the stream is read: the handler gives it a
    closure and the context object, and nothing in the handler ends their
    use.

    [postMessage_fault mesg transferList] is [Some e] when
    [parentPort.postMessage(mesg, transferList)] throws [e], which it does for
    a message it cannot clone and for a transfer list it cannot transfer.

    [deepFreeze_fault x] is [Some (x', e)] when [deepFreeze(x)] throws [e] and
    leaves the object as [x']; the tree of [jsval] does not show what makes
    a freeze fail, so this is left to the environment.  When it is [None] the
    call completes and the object is [deepFreeze x]. *)
Record Env : Type := {
  JSON_parse : string -> option jsval;
  createViteServer : settled ViteDevServer;
  renderRsc : RenderArgs -> RenderRun;
  renderRsc_later : RenderArgs -> list pipeline_action;
  getSsrConfig : SsrArgs -> settled (option (gmap string jsval));
  joinPath : string -> string -> string -> string;
  fileURLToFilePath : string -> string;
  postMessage_fault : gmap string jsval -> list jsval -> option jsval;
  deepFreeze_fault : jsval -> option (jsval * jsval)
}.

(** ** The worker's state and the effects of a handler *)

(** A call of [postMessage]: the message and the transfer list handed to
    it.  Whether the port took the message or threw is [postMessage_fault]. *)
Record Posted : Type := {
  posted_mesg : gmap string jsval;
  posted_transfer : list jsval
}.

(** Module-level state.  [constructions] counts the calls of
    [createViteServer]; [vitePromise] is the module constant, [None] until
    its declaration has been evaluated; [outbox] is the calls of
    [postMessage] so far, in order. *)
Record Worker : Type := {
  private_env : option jsval;
  constructions : nat;
  vitePromise : option (settled ViteDevServer);
  listening : bool;
  heap : gmap loc jsval;
  outbox : list Posted
}.

(** One effect of a running handler: what it does between two awaits.

    [Finish] is the rest of [handleRender] once [renderRsc] has resolved
    (lines 59 to 73): no await is left, so it runs as one step.  It builds the
    [start] message from the context object as it is at that moment and hands
    it to [postMessage]; if that throws, the [catch] block posts [err] and
    [deepFreeze] is not reached; otherwise [deepFreeze] runs, and if that
    throws, the [catch] block posts [err] after [start].  [port] and [freeze]
    are the port and the freeze of the environment. *)
Inductive effect : Type :=
| PostMessage (mesg : gmap string jsval) (transferList : list jsval)
| Finish (port : gmap string jsval -> list jsval -> option jsval)
         (freeze : jsval -> option (jsval * jsval))
         (id : jsval) (ctx : loc) (readable : jsval)
| Mutate (ctx : loc) (path : list string) (m : mutation).

(** [{ id, type: 'start', context: rr.context, stream: readable }] *)
Definition start_mesg (id ctxv readable : jsval) : gmap string jsval :=
  {[ "id" := id; "type" := JStr "start"; "context" := ctxv;
     "stream" := readable ]}.

(** The object at [l]; [undefined] when there is none. *)
Definition deref (h : gmap loc jsval) (l : loc) : jsval :=
  default JUndef (h !! l).

Definition post (p : Posted) (w : Worker) : Worker :=
  {| private_env := private_env w; constructions := constructions w;
     vitePromise := vitePromise w; listening := listening w;
     heap := heap w; outbox := outbox w ++ [p] |}.

Definition set_heap (h : gmap loc jsval) (w : Worker) : Worker :=
  {| private_env := private_env w; constructions := constructions w;
     vitePromise := vitePromise w; listening := listening w;
     heap := h; outbox := outbox w |}.

(** Modelled from the spec: [hasStatusCode] of [../renderers/utils.js], which
    is not among the sources.  The spec says it holds when the error exposes a
    status-code attribute. *)
Definition hasStatusCode (err : jsval) : bool := has_prop err "statusCode".

(** The [catch] block: [{ id, type: 'err', err }], then
    [mesg.statusCode = err.statusCode] under [hasStatusCode(err)]. *)
Definition err_mesg (id err : jsval) : gmap string jsval :=
  let mesg : gmap string jsval :=
    {[ "id" := id; "type" := JStr "err"; "err" := err ]} in
  if hasStatusCode err
  then <["statusCode" := get_prop err "statusCode"]> mesg
  else mesg.

(** [parentPort!.postMessage(mesg)] of the [catch] block: no transfer list.
    It is the last statement of the handler: if the port throws on it, the
    handler ends there and posts nothing more. *)
Definition err_post (id err : jsval) : Posted :=
  {| posted_mesg := err_mesg id err; posted_transfer := [] |}.

(** The calls of [postMessage] that [Finish] makes when the context object
    is [c]: [start], and [err] after it when the post or the freeze throws. *)
Definition finish_posts (port : gmap string jsval -> list jsval -> option jsval)
    (freeze : jsval -> option (jsval * jsval))
    (id c readable : jsval) : list Posted :=
  let start := {| posted_mesg := start_mesg id c readable;
                  posted_transfer := [readable] |} in
  match port (start_mesg id c readable) [readable] with
  | Some e => [start; err_post id e]
  | None =>
      match freeze c with
      | Some (_, e) => [start; err_post id e]
      | None => [start]
      end
  end.

(** The context object after [Finish]: untouched when the post of [start]
    throws, as the failed freeze left it when [deepFreeze] throws, deep-frozen
    otherwise. *)
Definition finish_context
    (port : gmap string jsval -> list jsval -> option jsval)
    (freeze : jsval -> option (jsval * jsval))
    (id c readable : jsval) : jsval :=
  match port (start_mesg id c readable) [readable] with
  | Some _ => c
  | None =>
      match freeze c with
      | Some (c', _) => c'
      | None => deepFreeze c
      end
  end.

(** A mutation a frozen object refuses throws inside the pipeline and leaves
    the heap as it was. *)
Definition run_effect (e : effect) (w : Worker) : Worker :=
  match e with
  | PostMessage m tl => post {| posted_mesg := m; posted_transfer := tl |} w
  | Finish port freeze i l r =>
      let w' := fold_left (fun w p => post p w)
                  (finish_posts port freeze i (deref (heap w) l) r) w in
      match heap w !! l with
      | Some x =>
          set_heap (<[l := finish_context port freeze i x r]> (heap w)) w'
      | None => w'
      end
  | Mutate l path m =>
      match heap w !! l with
      | Some x =>
          match mutate_at path m x with
          | Some x' => set_heap (<[l := x']> (heap w)) w
          | None => w
          end
      | None => w
      end
  end.

Definition run (es : list effect) (w : Worker) : Worker :=
  fold_left (fun w e => run_effect e w) es w.

(** ** Module evaluation *)

Definition initial : Worker :=
  {| private_env := None; constructions := 0; vitePromise := None;
     listening := false; heap := ∅; outbox := [] |}.

(** [globalThis.__WAKU_PRIVATE_ENV__ = JSON.parse(process.env.__WAKU_PRIVATE_ENV__!)].
    An unset variable reads as [undefined], which [JSON.parse] turns into the
    text [undefined] and rejects with a [SyntaxError]; [None] is that throw. *)
Definition install_private_env (E : Env) (penv : option string) (w : Worker)
  : option Worker :=
  match penv with
  | None => None
  | Some s =>
      match JSON_parse E s with
      | Some v =>
          Some {| private_env := Some v; constructions := constructions w;
                  vitePromise := vitePromise w; listening := listening w;
                  heap := heap w; outbox := outbox w |}
      | None => None
      end
  end.

(** [createViteServer(mergedViteConfig).then(async (vite) => { await
    vite.ws.close(); return vite; })] *)
Definition construct_vite (E : Env) : settled ViteDevServer :=
  match createViteServer E with
  | Fulfilled vite =>
      match ws_close vite with
      | Fulfilled _ => Fulfilled vite
      | Rejected e => Rejected e
      end
  | Rejected e => Rejected e
  end.

(** [const vitePromise = ...]: the call is made when the declaration is
    evaluated. *)
Definition declare_vitePromise (E : Env) (w : Worker) : Worker :=
  {| private_env := private_env w; constructions := S (constructions w);
     vitePromise := Some (construct_vite E); listening := listening w;
     heap := heap w; outbox := outbox w |}.

(** [parentPort!.on('message', ...)] *)
Definition install_listener (w : Worker) : Worker :=
  {| private_env := private_env w; constructions := constructions w;
     vitePromise := vitePromise w; listening := true;
     heap := heap w; outbox := outbox w |}.

(** The top-level statements that set the worker's state, in source order;
    [None] when one throws, which ends the evaluation of the module. *)
Definition module_eval (E : Env) (penv : option string) : option Worker :=
  match install_private_env E penv initial with
  | Some w => Some (install_listener (declare_vitePromise E w))
  | None => None
  end.

(** ** Loading through the Vite server *)

(** [await vitePromise].  Reading the constant before its declaration ran is
    a [ReferenceError]. *)
Definition await_vitePromise (w : Worker) : settled ViteDevServer :=
  match vitePromise w with
  | Some p => p
  | None => Rejected (JStr "ReferenceError")
  end.

Definition loadServerFile (E : Env) (w : Worker) (fileURL : string)
  : settled jsval :=
  match await_vitePromise w with
  | Fulfilled vite => ssrLoadModule vite (fileURLToFilePath E fileURL)
  | Rejected e => Rejected e
  end.

Definition loadEntries (E : Env) (w : Worker) (cfg : ResolvedConfig)
  : settled jsval :=
  match await_vitePromise w with
  | Fulfilled vite =>
      ssrLoadModule vite
        (joinPath E (config_root vite) (srcDir cfg) (entriesJs cfg))
  | Rejected e => Rejected e
  end.

(** ** The handlers *)

(** [{ id, type: 'moduleId', moduleId }] *)
Definition moduleId_mesg (id : jsval) (moduleId : string)
  : gmap string jsval :=
  {[ "id" := id; "type" := JStr "moduleId"; "moduleId" := JStr moduleId ]}.

(** What the worker sees of the pipeline: a reported module id calls
    [rr.moduleIdCallback], which posts at once when it was installed; a write
    goes to the shared context object.  If the port throws on the post, the
    exception is raised inside the pipeline, whose run is taken as given. *)
Definition pipeline_effect (id : jsval) (ctx : loc) (callback : bool)
    (a : pipeline_action) : list effect :=
  match a with
  | Report moduleId =>
      if callback then [PostMessage (moduleId_mesg id moduleId) []] else []
  | Write path m => [Mutate ctx path m]
  end.

Definition handleRender (E : Env) (w : Worker) (mesg : MessageReq)
  : list effect :=
  let id := mesg_id mesg in
  match loadEntries E w (config mesg) with
  | Rejected err => [PostMessage (err_mesg id err) []]
  | Fulfilled entries =>
      let r := renderRsc E
        {| arg_config := config mesg;
           arg_input := input mesg;
           arg_searchParams := URLSearchParams (searchParamsString mesg);
           arg_method := method mesg;
           arg_context := context mesg;
           arg_body := stream mesg;
           arg_contentType := contentType mesg;
           arg_moduleIdCallback := hasModuleIdCallback mesg;
           arg_isDev := true;
           arg_customImport := loadServerFile E w;
           arg_entries := entries |} in
      flat_map (pipeline_effect id (context mesg) (hasModuleIdCallback mesg))
               (actions r)
      ++ match outcome r with
         | Fulfilled readable =>
             [Finish (postMessage_fault E) (deepFreeze_fault E)
                     id (context mesg) readable]
         | Rejected err => [PostMessage (err_mesg id err) []]
         end
  end.

(** [{ id, type: 'ssrConfig', ...ssrConfig }]: the spread comes last, so a
    property of [ssrConfig] wins over the two written before it. *)
Definition ssrConfig_mesg (id : jsval) (ssrConfig : gmap string jsval)
  : gmap string jsval :=
  ssrConfig ∪ {[ "id" := id; "type" := JStr "ssrConfig" ]}.

(** [{ id, type: 'noSsrConfig' }] *)
Definition noSsrConfig_mesg (id : jsval) : gmap string jsval :=
  {[ "id" := id; "type" := JStr "noSsrConfig" ]}.

(** [parentPort!.postMessage(mesg, transferList)] inside [try]: the call,
    and when it throws the [err] response of the [catch] block.  Nothing is
    awaited in between. *)
Definition try_post (E : Env) (id : jsval) (mesg : gmap string jsval)
    (transferList : list jsval) : list effect :=
  PostMessage mesg transferList
  :: match postMessage_fault E mesg transferList with
     | Some e => [PostMessage (err_mesg id e) []]
     | None => []
     end.

Definition handleGetSsrConfig (E : Env) (w : Worker) (mesg : MessageReq)
  : list effect :=
  let id := mesg_id mesg in
  let searchParams := URLSearchParams (searchParamsString mesg) in
  match loadEntries E w (config mesg) with
  | Rejected err => [PostMessage (err_mesg id err) []]
  | Fulfilled entries =>
      match getSsrConfig E
              {| ssr_config := config mesg;
                 ssr_pathname := pathname mesg;
                 ssr_searchParams := searchParams;
                 ssr_isDev := true;
                 ssr_entries := entries |} with
      | Fulfilled (Some ssrConfig) =>
          try_post E id (ssrConfig_mesg id ssrConfig)
                   [default JUndef (ssrConfig !! "body")]
      | Fulfilled None => try_post E id (noSsrConfig_mesg id) []
      | Rejected err => [PostMessage (err_mesg id err) []]
      end
  end.

(** ** The message listener *)

Inductive handler : Type := HandleRender | HandleGetSsrConfig.

(** The [if ... else if ...] of the listener: which handler it calls. *)
Definition dispatch (mesg : MessageReq) : option handler :=
  if String.eqb (mesg_type mesg) "render" then Some HandleRender
  else if String.eqb (mesg_type mesg) "getSsrConfig" then Some HandleGetSsrConfig
  else None.

(** The effects a delivered message gives rise to. *)
Definition on_message (E : Env) (w : Worker) (mesg : MessageReq)
  : list effect :=
  match dispatch mesg with
  | Some HandleRender => handleRender E w mesg
  | Some HandleGetSsrConfig => handleGetSsrConfig E w mesg
  | None => []
  end.

(** ** Observing what a handler posts *)

(** What one effect hands to [postMessage] in state [w]. *)
Definition effect_posts (e : effect) (w : Worker) : list Posted :=
  match e with
  | PostMessage m tl => [{| posted_mesg := m; posted_transfer := tl |}]
  | Finish port freeze i l r =>
      finish_posts port freeze i (deref (heap w) l) r
  | Mutate _ _ _ => []
  end.

(** The messages posted while the effects run from [w], in order. *)
Fixpoint posts (es : list effect) (w : Worker) : list Posted :=
  match es with
  | [] => []
  | e :: es' => effect_posts e w ++ posts es' (run_effect e w)
  end.

(** The [type] tag of a posted message is the string [t]. *)
Definition is_type (t : string) (p : Posted) : bool :=
  match posted_mesg p !! "type" with
  | Some (JStr s) => String.eqb s t
  | _ => false
  end.

(** A terminal response of a render session: [start] or [err]. *)
Definition terminal (p : Posted) : bool :=
  is_type "start" p || is_type "err" p.

(** The [id] a posted message carries, if it has one. *)
Definition posted_id (p : Posted) : option jsval := posted_mesg p !! "id".

(** What the awaited expressions of [handleRender] settle to: the rejection of
    [loadEntries] if it rejects, the outcome of [renderRsc] otherwise. *)
Definition render_outcome (E : Env) (w : Worker) (mesg : MessageReq)
  : settled jsval :=
  match loadEntries E w (config mesg) with
  | Rejected err => Rejected err
  | Fulfilled entries =>
      outcome (renderRsc E
        {| arg_config := config mesg;
           arg_input := input mesg;
           arg_searchParams := URLSearchParams (searchParamsString mesg);
           arg_method := method mesg;
           arg_context := context mesg;
           arg_body := stream mesg;
           arg_contentType := contentType mesg;
           arg_moduleIdCallback := hasModuleIdCallback mesg;
           arg_isDev := true;
           arg_customImport := loadServerFile E w;
           arg_entries := entries |})
  end.

(** The pipeline actions of the session; none when [loadEntries] rejects,
    since [renderRsc] is then never called. *)
Definition render_actions (E : Env) (w : Worker) (mesg : MessageReq)
  : list pipeline_action :=
  match loadEntries E w (config mesg) with
  | Rejected _ => []
  | Fulfilled entries =>
      actions (renderRsc E
        {| arg_config := config mesg;
           arg_input := input mesg;
           arg_searchParams := URLSearchParams (searchParamsString mesg);
           arg_method := method mesg;
           arg_context := context mesg;
           arg_body := stream mesg;
           arg_contentType := contentType mesg;
           arg_moduleIdCallback := hasModuleIdCallback mesg;
           arg_isDev := true;
           arg_customImport := loadServerFile E w;
           arg_entries := entries |})
  end.

(** The module ids among the pipeline's actions, in the order reported. *)
Fixpoint reported (acts : list pipeline_action) : list string :=
  match acts with
  | [] => []
  | Report m :: acts' => m :: reported acts'
  | Write _ _ :: acts' => reported acts'
  end.

(** The message a reported module id is posted as. *)
Definition moduleId_post (id : jsval) (moduleId : string) : Posted :=
  {| posted_mesg := moduleId_mesg id moduleId; posted_transfer := [] |}.

(** ** Concurrent handlers *)

(** The worker is one thread: handlers that are in flight together take turns
    at their await points, so their effects happen in some interleaving. *)
Inductive interleave {A : Type} : list A -> list A -> list A -> Prop :=
| interleave_nil : interleave [] [] []
| interleave_left a l1 l2 l :
    interleave l1 l2 l -> interleave (a :: l1) l2 (a :: l)
| interleave_right a l1 l2 l :
    interleave l1 l2 l -> interleave l1 (a :: l2) (a :: l).

(** The effects of the handler of request [mesg], each labelled with the [id]
    of that request. *)
Definition session (E : Env) (w : Worker) (mesg : MessageReq)
  : list (jsval * effect) :=
  map (pair (mesg_id mesg)) (on_message E w mesg).

(** The messages posted by labelled effects, each with the label of the
    effect that posted it. *)
Fixpoint posts_tagged (tes : list (jsval * effect)) (w : Worker)
  : list (jsval * Posted) :=
  match tes with
  | [] => []
  | (i, e) :: tes' =>
      map (pair i) (effect_posts e w) ++ posts_tagged tes' (run_effect e w)
  end.

(** A posted message is attributed to the request it was posted for. *)
Definition own_id (ip : jsval * Posted) : Prop :=
  posted_id ip.2 = Some ip.1.

(** Every message the effect posts carries [i], in whatever state it runs. *)
Definition posts_only_id (ie : jsval * effect) : Prop :=
  forall w, Forall (fun p => posted_id p = Some ie.1) (effect_posts ie.2 w).

(** The config objects the resolver settles to have no property [id]. *)
Definition resolver_has_no_id (E : Env) : Prop :=
  forall args cfg,
    getSsrConfig E args = Fulfilled (Some cfg) -> cfg !! "id" = None.

(** ** A concrete worker, for examples *)

Definition demo_vite : ViteDevServer :=
  {| config_root := "/app";
     ws_close := Fulfilled tt;
     ssrLoadModule := fun _ => Fulfilled (JObj false []) |}.

(** The stream handles inside a value. *)
Fixpoint streams_in (v : jsval) : list nat :=
  match v with
  | JStream h => [h]
  | JObj _ ps => flat_map (fun kv => let '(_, x) := kv in streams_in x) ps
  | _ => []
  end.

(** Of the values modelled here only a stream can be transferred. *)
Definition transferable (v : jsval) : bool :=
  match v with
  | JStream _ => true
  | _ => false
  end.

(** The stream [h] is in the transfer list. *)
Definition listed (transferList : list jsval) (h : nat) : bool :=
  existsb (fun v => match v with JStream h' => Nat.eqb h h' | _ => false end)
          transferList.

(** A port that treats the values modelled here as Node's does: a transfer
    list with an item that cannot be transferred is a [TypeError], and a
    stream inside the message that the transfer list does not name is a
    [DataCloneError]. *)
Definition node_port (mesg : gmap string jsval) (transferList : list jsval)
  : option jsval :=
  if negb (forallb transferable transferList)
  then Some (JObj false [("name", JStr "TypeError")])
  else if forallb (listed transferList)
            (flat_map (fun kv => streams_in kv.2) (map_to_list mesg))
       then None
       else Some (JObj false [("name", JStr "DataCloneError")]).

(** An environment whose render pipeline always behaves as [r], and as
    [later] once it has settled, whose config resolver always settles to [c],
    whose port is [node_port] and whose freeze fails as [ff] says. *)
Definition demo_env_with (r : RenderRun) (later : list pipeline_action)
    (c : settled (option (gmap string jsval)))
    (ff : jsval -> option (jsval * jsval)) : Env :=
  {| JSON_parse := fun s =>
       if String.eqb s "{}" then Some (JObj false []) else None;
     createViteServer := Fulfilled demo_vite;
     renderRsc := fun _ => r;
     renderRsc_later := fun _ => later;
     getSsrConfig := fun _ => c;
     joinPath := fun a b c => a +:+ "/" +:+ b +:+ "/" +:+ c;
     fileURLToFilePath := fun s => s;
     postMessage_fault := node_port;
     deepFreeze_fault := ff |}.

(** An environment whose render pipeline always behaves as [r] and whose
    config resolver always settles to [c]; the pipeline does nothing once it
    has settled, and the freeze never fails. *)
Definition demo_env (r : RenderRun)
    (c : settled (option (gmap string jsval))) : Env :=
  demo_env_with r [] c (fun _ => None).

(** A pipeline that reports nothing and resolves with stream 7. *)
Definition quiet_run : RenderRun :=
  {| actions := []; outcome := Fulfilled (JStream 7) |}.

(** The worker after its module was evaluated with [__WAKU_PRIVATE_ENV__]
    set to the text of an empty object, holding the context [c] at location 0. *)
Definition demo_worker (E : Env) (c : jsval) : Worker :=
  match module_eval E (Some "{}") with
  | Some w => set_heap {[ 0%nat := c ]} w
  | None => initial
  end.

Definition demo_request (i : Z) (ty : string) (cb : bool) : MessageReq :=
  {| mesg_id := JNum i; mesg_type := ty;
     config := {| srcDir := "src"; entriesJs := "entries.js" |};
     input := "index"; searchParamsString := ""; method := "GET";
     context := 0%nat; stream := JUndef; contentType := JUndef;
     hasModuleIdCallback := cb; pathname := "/about" |}.

(** ** Environments and values used in the examples *)

(** A resolver whose config object has a property named [id]. *)
Definition id_clash_env : Env :=
  demo_env quiet_run
    (Fulfilled (Some {[ "id" := JNum 2; "input" := JStr "about";
                        "body" := JStream 3 ]})).

(** ** The lifetime of the worker *)

(** The states the worker goes through once its module was evaluated with
    the environment variable read as [penv]: a message arrives and its context
    is deserialised into the heap, or a handler in flight performs an
    effect.

    This is more than the worker can reach.  [vitePromise] has no rejection
    handler of its own, so when the construction fails while no handler
    awaits it, Node ends the worker; the states after that are kept here.
    What holds in every state of this larger set holds in every state of the
    worker. *)
Inductive reachable (E : Env) (penv : option string) : Worker -> Prop :=
| reach_eval w :
    module_eval E penv = Some w -> reachable E penv w
| reach_receive w l c :
    reachable E penv w -> reachable E penv (set_heap (<[l := c]> (heap w)) w)
| reach_effect w e :
    reachable E penv w -> reachable E penv (run_effect e w).

(** An environment in which the construction of the server fails. *)
Definition failing_vite_env : Env :=
  {| JSON_parse := fun _ => Some (JObj false []);
     createViteServer := Rejected (JStr "EADDRINUSE");
     renderRsc := fun _ => quiet_run;
     renderRsc_later := fun _ => [];
     getSsrConfig := fun _ => Fulfilled None;
     joinPath := fun a b c => a +:+ b +:+ c;
     fileURLToFilePath := fun s => s;
     postMessage_fault := node_port;
     deepFreeze_fault := fun _ => None |}.

(** What the awaited expressions of [handleGetSsrConfig] settle to. *)
Definition ssr_outcome (E : Env) (w : Worker) (mesg : MessageReq)
  : settled (option (gmap string jsval)) :=
  match loadEntries E w (config mesg) with
  | Rejected err => Rejected err
  | Fulfilled entries =>
      getSsrConfig E
        {| ssr_config := config mesg;
           ssr_pathname := pathname mesg;
           ssr_searchParams := URLSearchParams (searchParamsString mesg);
           ssr_isDev := true;
           ssr_entries := entries |}
  end.

(** A resolver whose config object has a property named [type]. *)
Definition type_clash_env : Env :=
  demo_env quiet_run
    (Fulfilled (Some {[ "type" := JStr "redirect"; "body" := JStream 3 ]})).

(** The [statusCode] attribute the thrown value exposes, if it has one. *)
Definition statusCode_of (err : jsval) : option jsval :=
  match err with
  | JObj _ ps => assoc "statusCode" ps
  | _ => None
  end.


(** The effects of the pipeline while [renderRsc] is awaited. *)
Definition awaiting (E : Env) (w : Worker) (mesg : MessageReq) : list effect :=
  flat_map (pipeline_effect (mesg_id mesg) (context mesg)
                            (hasModuleIdCallback mesg))
           (render_actions E w mesg).

(** ** The reload and import broadcaster *)

(** [typeof x]; a stream is an object. *)
Definition typeof (x : jsval) : string :=
  match x with
  | JUndef => "undefined"
  | JBool _ => "boolean"
  | JNum _ => "number"
  | JStr _ => "string"
  | JStream _ => "object"
  | JObj _ _ => "object"
  end.

(** The callback handed to [rscReloadPlugin]:
    [(type) => { const mesg = { type }; parentPort!.postMessage(mesg); }] *)
Definition reload_callback (type : string) : list effect :=
  [PostMessage {[ "type" := JStr type ]} []].

(** The callback handed to [rscDelegatePlugin]: an object is forwarded as a
    [module-import] result, anything else as a [hot-import] source. *)
Definition delegate_callback (resultOrSource : jsval) : list effect :=
  let mesg : gmap string jsval :=
    if String.eqb (typeof resultOrSource) "object"
    then {[ "type" := JStr "module-import"; "result" := resultOrSource ]}
    else {[ "type" := JStr "hot-import"; "source" := resultOrSource ]} in
  [PostMessage mesg []].

(** What the plugins of the Vite server tell the worker. *)
Inductive plugin_event : Type :=
| Reload (type : string)
| Import (resultOrSource : jsval).

Definition broadcast (ev : plugin_event) : list effect :=
  match ev with
  | Reload type => reload_callback type
  | Import resultOrSource => delegate_callback resultOrSource
  end.

(** A posted message is correlated when it has an [id] field. *)
Definition correlated (p : Posted) : bool :=
  bool_decide (is_Some (posted_id p)).

(** The effect writes to the object at [l]. *)
Definition touches (l : loc) (e : effect) : bool :=
  match e with
  | Finish _ _ _ l' _ => Nat.eqb l l'
  | Mutate l' _ _ => Nat.eqb l l'
  | PostMessage _ _ => false
  end.

(** An environment in which the server is created and its websocket fails
    to close. *)
Definition ws_close_fails_env : Env :=
  {| JSON_parse := fun _ => Some (JObj false []);
     createViteServer :=
       Fulfilled {| config_root := "/app";
                    ws_close := Rejected (JStr "ws closed twice");
                    ssrLoadModule := fun _ => Fulfilled (JObj false []) |};
     renderRsc := fun _ => quiet_run;
     renderRsc_later := fun _ => [];
     getSsrConfig := fun _ => Fulfilled None;
     joinPath := fun a b c => a +:+ b +:+ c;
     fileURLToFilePath := fun s => s;
     postMessage_fault := node_port;
     deepFreeze_fault := fun _ => None |}.

(** ** The session of a render request *)

(** What the pipeline still does once [renderRsc] has settled; nothing when
    [loadEntries] rejects, since [renderRsc] is then never called. *)
Definition render_later (E : Env) (w : Worker) (mesg : MessageReq)
  : list pipeline_action :=
  match loadEntries E w (config mesg) with
  | Rejected _ => []
  | Fulfilled entries =>
      renderRsc_later E
        {| arg_config := config mesg;
           arg_input := input mesg;
           arg_searchParams := URLSearchParams (searchParamsString mesg);
           arg_method := method mesg;
           arg_context := context mesg;
           arg_body := stream mesg;
           arg_contentType := contentType mesg;
           arg_moduleIdCallback := hasModuleIdCallback mesg;
           arg_isDev := true;
           arg_customImport := loadServerFile E w;
           arg_entries := entries |}
  end.

(** The effects of one render request: those of [handleRender], then those
    of the closure and the context object it left with the pipeline. *)
Definition render_session (E : Env) (w : Worker) (mesg : MessageReq)
  : list effect :=
  handleRender E w mesg
  ++ flat_map (pipeline_effect (mesg_id mesg) (context mesg)
                               (hasModuleIdCallback mesg))
              (render_later E w mesg).

(** The port took the message. *)
Definition accepted (E : Env) (p : Posted) : bool :=
  match postMessage_fault E (posted_mesg p) (posted_transfer p) with
  | None => true
  | Some _ => false
  end.

(** Of the messages handed to [postMessage], those that reach the host. *)
Definition delivered (E : Env) (ps : list Posted) : list Posted :=
  List.filter (accepted E) ps.

(** The effect is not the end of a render on the context at [l]. *)
Definition not_finish_of (l : loc) (e : effect) : Prop :=
  match e with
  | Finish _ _ _ l' _ => l' <> l
  | _ => True
  end.

(** The error the [catch] block of [handleRender] receives, if any, when the
    effects run from [w']: the rejection of an awaited call, or what the post
    of [start] throws, or what [deepFreeze] throws. *)
Definition render_caught (E : Env) (w w' : Worker) (mesg : MessageReq)
  : option jsval :=
  match render_outcome E w mesg with
  | Rejected e => Some e
  | Fulfilled readable =>
      let c := deref (heap (run (awaiting E w mesg) w')) (context mesg) in
      match postMessage_fault E (start_mesg (mesg_id mesg) c readable)
                              [readable] with
      | Some e => Some e
      | None =>
          match deepFreeze_fault E c with
          | Some (_, e) => Some e
          | None => None
          end
      end
  end.

(** A freeze that freezes the object itself and then throws. *)
Definition freeze_fails (x : jsval) : option (jsval * jsval) :=
  Some (match x with JObj _ ps => JObj true ps | _ => x end,
        JObj false [("name", JStr "TypeError")]).


(** * Properties *)

(** ** Basic facts *)

Lemma run_app (es1 es2 : list effect) (w : Worker) :
  run (es1 ++ es2) w = run es2 (run es1 w).
Proof. unfold run. apply fold_left_app. Qed.

Lemma posts_app (es1 es2 : list effect) (w : Worker) :
  posts (es1 ++ es2) w = posts es1 w ++ posts es2 (run es1 w).
Proof.
  revert w. induction es1 as [|e es1 IH]; intros w; simpl; [done|].
  rewrite IH, <- app_assoc. done.
Qed.

(** Posting changes the outbox and nothing else. *)
Lemma post_all_fields (ps : list Posted) (w : Worker) :
  private_env (fold_left (fun w p => post p w) ps w) = private_env w
  /\ constructions (fold_left (fun w p => post p w) ps w) = constructions w
  /\ vitePromise (fold_left (fun w p => post p w) ps w) = vitePromise w
  /\ listening (fold_left (fun w p => post p w) ps w) = listening w
  /\ heap (fold_left (fun w p => post p w) ps w) = heap w
  /\ outbox (fold_left (fun w p => post p w) ps w) = outbox w ++ ps.
Proof.
  revert w. induction ps as [|p ps IH]; intros w; simpl.
  - by rewrite app_nil_r.
  - destruct (IH (post p w)) as (-> & -> & -> & -> & -> & ->). simpl.
    by rewrite <- app_assoc.
Qed.

Lemma outbox_run_effect (e : effect) (w : Worker) :
  outbox (run_effect e w) = outbox w ++ effect_posts e w.
Proof.
  destruct e as [m tl|port fz i l r|l path m]; simpl.
  - done.
  - destruct (heap w !! l); simpl; apply post_all_fields.
  - destruct (heap w !! l) as [x|]; simpl; [|by rewrite app_nil_r].
    destruct (mutate_at path m x); simpl; by rewrite app_nil_r.
Qed.

(** The heap after [Finish]. *)
Lemma heap_run_finish (port : gmap string jsval -> list jsval -> option jsval)
    (fz : jsval -> option (jsval * jsval)) (i : jsval) (l : loc) (r : jsval)
    (w : Worker) :
  heap (run_effect (Finish port fz i l r) w) =
  match heap w !! l with
  | Some x => <[l := finish_context port fz i x r]> (heap w)
  | None => heap w
  end.
Proof.
  simpl. destruct (heap w !! l); simpl; [done|]. apply post_all_fields.
Qed.

Lemma outbox_run (es : list effect) (w : Worker) :
  outbox (run es w) = outbox w ++ posts es w.
Proof.
  revert w. induction es as [|e es IH]; intros w; simpl.
  - by rewrite app_nil_r.
  - change (run (e :: es) w) with (run es (run_effect e w)).
    rewrite IH, outbox_run_effect, <- app_assoc. done.
Qed.

Lemma handleRender_unfold (E : Env) (w : Worker) (mesg : MessageReq) :
  handleRender E w mesg =
  flat_map (pipeline_effect (mesg_id mesg) (context mesg)
                            (hasModuleIdCallback mesg))
           (render_actions E w mesg)
  ++ match render_outcome E w mesg with
     | Fulfilled readable =>
         [Finish (postMessage_fault E) (deepFreeze_fault E)
                 (mesg_id mesg) (context mesg) readable]
     | Rejected err => [PostMessage (err_mesg (mesg_id mesg) err) []]
     end.
Proof.
  unfold handleRender, render_actions, render_outcome.
  destruct (loadEntries E w (config mesg)); done.
Qed.

Lemma err_mesg_type (i e : jsval) : err_mesg i e !! "type" = Some (JStr "err").
Proof. unfold err_mesg. destruct (hasStatusCode e); by simplify_map_eq. Qed.

Lemma err_mesg_id (i e : jsval) : err_mesg i e !! "id" = Some i.
Proof. unfold err_mesg. destruct (hasStatusCode e); by simplify_map_eq. Qed.

Lemma err_mesg_err (i e : jsval) : err_mesg i e !! "err" = Some e.
Proof. unfold err_mesg. destruct (hasStatusCode e); by simplify_map_eq. Qed.

Lemma moduleId_mesg_type (i : jsval) (m : string) :
  moduleId_mesg i m !! "type" = Some (JStr "moduleId").
Proof. unfold moduleId_mesg. by simplify_map_eq. Qed.

Lemma moduleId_mesg_id (i : jsval) (m : string) :
  moduleId_mesg i m !! "id" = Some i.
Proof. unfold moduleId_mesg. by simplify_map_eq. Qed.

Lemma start_mesg_type (i c r : jsval) :
  start_mesg i c r !! "type" = Some (JStr "start").
Proof. unfold start_mesg. by simplify_map_eq. Qed.

Lemma start_mesg_id (i c r : jsval) : start_mesg i c r !! "id" = Some i.
Proof. unfold start_mesg. by simplify_map_eq. Qed.

(** While [renderRsc] is awaited the worker posts one [moduleId] message per
    reported id when the callback is installed, and nothing otherwise. *)
Lemma posts_pipeline (i : jsval) (l : loc) (cb : bool)
    (acts : list pipeline_action) (w : Worker) :
  posts (flat_map (pipeline_effect i l cb) acts) w =
  if cb then map (moduleId_post i) (reported acts) else [].
Proof.
  revert w. induction acts as [|a acts IH]; intros w; simpl.
  - by destruct cb.
  - rewrite posts_app, IH.
    destruct a as [m|path mu]; simpl; destruct cb; simpl; done.
Qed.

Lemma terminal_moduleId_post (i : jsval) (m : string) :
  terminal (moduleId_post i m) = false.
Proof.
  unfold terminal, is_type, moduleId_post; simpl.
  by rewrite moduleId_mesg_type.
Qed.

Lemma filter_terminal_moduleIds (i : jsval) (ms : list string) :
  List.filter terminal (map (moduleId_post i) ms) = [].
Proof.
  induction ms as [|m ms IH]; simpl; [done|].
  by rewrite terminal_moduleId_post.
Qed.

Lemma filter_terminal_pipeline (i : jsval) (l : loc) (cb : bool)
    (acts : list pipeline_action) (w : Worker) :
  List.filter terminal (posts (flat_map (pipeline_effect i l cb) acts) w) = [].
Proof.
  rewrite posts_pipeline. destruct cb; [apply filter_terminal_moduleIds|done].
Qed.

(** ** The render session *)

Lemma terminal_start (i c r : jsval) (tl : list jsval) :
  terminal {| posted_mesg := start_mesg i c r; posted_transfer := tl |} = true.
Proof. unfold terminal, is_type. simpl. by rewrite start_mesg_type. Qed.

Lemma terminal_err_post (i e : jsval) : terminal (err_post i e) = true.
Proof. unfold terminal, is_type. simpl. by rewrite err_mesg_type. Qed.





(** ** No cross-talk between sessions *)

Lemma interleave_Forall {A : Type} (P : A -> Prop) (l1 l2 l : list A) :
  interleave l1 l2 l -> Forall P l1 -> Forall P l2 -> Forall P l.
Proof.
  induction 1 as [|a l1 l2 l _ IH|a l1 l2 l _ IH]; intros H1 H2.
  - constructor.
  - inversion H1; subst. constructor; auto.
  - inversion H2; subst. constructor; auto.
Qed.

Lemma posts_tagged_own (tes : list (jsval * effect)) (w : Worker) :
  Forall posts_only_id tes -> Forall own_id (posts_tagged tes w).
Proof.
  intros H. revert w.
  induction H as [|[i e] tes Hie _ IH]; intros w; simpl; [constructor|].
  apply Forall_app. split; [|apply IH].
  apply Forall_map. specialize (Hie w). simpl in Hie.
  eapply Forall_impl; [exact Hie|]. intros p Hp. exact Hp.
Qed.

Lemma posts_only_id_message (i : jsval) (m : gmap string jsval)
    (tl : list jsval) :
  m !! "id" = Some i -> posts_only_id (i, PostMessage m tl).
Proof. intros Hm w. simpl. repeat constructor. exact Hm. Qed.

Lemma finish_posts_ids (port : gmap string jsval -> list jsval -> option jsval)
    (fz : jsval -> option (jsval * jsval)) (i c r : jsval) :
  Forall (fun p => posted_id p = Some i) (finish_posts port fz i c r).
Proof.
  unfold finish_posts.
  destruct (port (start_mesg i c r) [r]) as [e|];
    [|destruct (fz c) as [[c' e]|]];
    repeat (constructor; [first [apply start_mesg_id|apply err_mesg_id]|]);
    constructor.
Qed.

Lemma handleRender_posts_only_id (E : Env) (w : Worker) (mesg : MessageReq) :
  Forall posts_only_id (map (pair (mesg_id mesg)) (handleRender E w mesg)).
Proof.
  apply Forall_map. rewrite handleRender_unfold. apply Forall_app. split.
  - apply Forall_flat_map, Forall_forall. intros a _.
    destruct a as [m|path mu]; simpl.
    + destruct (hasModuleIdCallback mesg); [|constructor].
      constructor; [|constructor].
      apply posts_only_id_message, moduleId_mesg_id.
    + constructor; [|constructor]. intros w0. constructor.
  - destruct (render_outcome E w mesg) as [r|e].
    + constructor; [|constructor]. intros w0. apply finish_posts_ids.
    + constructor; [|constructor].
      apply posts_only_id_message, err_mesg_id.
Qed.

Lemma ssrConfig_mesg_id (i : jsval) (cfg : gmap string jsval) :
  cfg !! "id" = None -> ssrConfig_mesg i cfg !! "id" = Some i.
Proof.
  intros H. unfold ssrConfig_mesg.
  rewrite lookup_union_r by exact H. by simplify_map_eq.
Qed.

Lemma noSsrConfig_mesg_id (i : jsval) : noSsrConfig_mesg i !! "id" = Some i.
Proof. unfold noSsrConfig_mesg. by simplify_map_eq. Qed.

Lemma try_post_ids (E : Env) (i : jsval) (m : gmap string jsval)
    (tl : list jsval) :
  m !! "id" = Some i ->
  Forall (fun e => posts_only_id (i, e)) (try_post E i m tl).
Proof.
  intros Hm. unfold try_post. constructor.
  - by apply posts_only_id_message.
  - destruct (postMessage_fault E m tl) as [e|]; [|constructor].
    constructor; [|constructor]. apply posts_only_id_message, err_mesg_id.
Qed.

Lemma handleGetSsrConfig_posts_only_id (E : Env) (w : Worker)
    (mesg : MessageReq) :
  resolver_has_no_id E ->
  Forall posts_only_id
    (map (pair (mesg_id mesg)) (handleGetSsrConfig E w mesg)).
Proof.
  intros HE. apply Forall_map. unfold handleGetSsrConfig.
  destruct (loadEntries E w (config mesg)) as [entries|e].
  - match goal with |- context [getSsrConfig E ?a] =>
      destruct (getSsrConfig E a) as [[cfg|]|e] eqn:Hcfg end.
    + apply try_post_ids, ssrConfig_mesg_id. eapply HE, Hcfg.
    + apply try_post_ids, noSsrConfig_mesg_id.
    + constructor; [|constructor].
      apply posts_only_id_message, err_mesg_id.
  - constructor; [|constructor].
    apply posts_only_id_message, err_mesg_id.
Qed.

Lemma session_posts_only_id (E : Env) (w : Worker) (mesg : MessageReq) :
  resolver_has_no_id E -> Forall posts_only_id (session E w mesg).
Proof.
  intros HE. unfold session, on_message.
  destruct (dispatch mesg) as [[|]|].
  - apply handleRender_posts_only_id.
  - by apply handleGetSsrConfig_posts_only_id.
  - constructor.
Qed.

Lemma interleave_app {A : Type} (l1 l2 : list A) : interleave l1 l2 (l1 ++ l2).
Proof.
  induction l1 as [|a l1 IH]; simpl.
  - induction l2 as [|b l2 IH]; constructor; done.
  - by constructor.
Qed.

(** C2 fails as stated: the request with id 1 asks for the SSR config, the
    request with id 2 renders, and the [ssrConfig] response posted for request
    1 carries id 2, because the spread of the resolver's result overwrites the
    [id] written before it. *)
Lemma cross_talk_by_spread :
  let w := demo_worker id_clash_env (JObj false []) in
  let r1 := demo_request 1 "getSsrConfig" false in
  let r2 := demo_request 2 "render" false in
  mesg_id r1 <> mesg_id r2
  /\ interleave (session id_clash_env w r1) (session id_clash_env w r2)
       (session id_clash_env w r1 ++ session id_clash_env w r2)
  /\ ~ Forall own_id
       (posts_tagged (session id_clash_env w r1 ++ session id_clash_env w r2) w)
  /\ exists p, In (JNum 1, p)
       (posts_tagged (session id_clash_env w r1 ++ session id_clash_env w r2) w)
       /\ posted_id p = Some (JNum 2).
Proof.
  intros w r1 r2. split; [discriminate|]. split; [apply interleave_app|].
  split.
  - intros H. apply Forall_inv in H. vm_compute in H. discriminate.
  - eexists. split; [left; reflexivity|]. vm_compute. reflexivity.
Qed.

(** C2, amended: when the config objects of the resolver have no property
    [id], then for two requests with distinct ids handled concurrently, in
    every interleaving of their effects and from every state, each message
    posted carries the [id] of the request whose handler posted it. *)
Theorem no_cross_talk (E : Env) (w w' : Worker) (r1 r2 : MessageReq)
    (t : list (jsval * effect)) :
  resolver_has_no_id E ->
  mesg_id r1 <> mesg_id r2 ->
  interleave (session E w r1) (session E w r2) t ->
  Forall own_id (posts_tagged t w').
Proof.
  intros HE _ Ht. apply posts_tagged_own.
  eapply interleave_Forall; [exact Ht| |]; by apply session_posts_only_id.
Qed.

Lemma no_cross_talk_witness :
  let E := demo_env quiet_run (Fulfilled (Some {[ "body" := JStream 3 ]})) in
  let w := demo_worker E (JObj false []) in
  let r1 := demo_request 1 "getSsrConfig" false in
  let r2 := demo_request 2 "render" true in
  Forall own_id (posts_tagged (session E w r1 ++ session E w r2) w).
Proof.
  intros E w r1 r2.
  apply (no_cross_talk E w w r1 r2 (session E w r1 ++ session E w r2)).
  - intros args cfg H. vm_compute in H. injection H as <-. reflexivity.
  - discriminate.
  - apply interleave_app.
Defined.

(** ** The listener and unknown messages *)

(** C8: a message whose [type] is neither [render] nor [getSsrConfig] calls
    no handler and has no effect: nothing is posted and the worker's state,
    listener included, is what it was. *)
Theorem unknown_type_ignored (E : Env) (w w' : Worker) (mesg : MessageReq) :
  mesg_type mesg <> "render" ->
  mesg_type mesg <> "getSsrConfig" ->
  dispatch mesg = None
  /\ on_message E w mesg = []
  /\ posts (on_message E w mesg) w' = []
  /\ run (on_message E w mesg) w' = w'.
Proof.
  intros Hr Hs.
  assert (Hd : dispatch mesg = None).
  { unfold dispatch.
    destruct (String.eqb_spec (mesg_type mesg) "render") as [H|_];
      [by destruct Hr|].
    destruct (String.eqb_spec (mesg_type mesg) "getSsrConfig") as [H|_];
      [by destruct Hs|done]. }
  unfold on_message. rewrite Hd. done.
Qed.

Lemma unknown_type_ignored_witness :
  let E := demo_env quiet_run (Fulfilled None) in
  let w := demo_worker E (JObj false []) in
  let mesg := demo_request 5 "ping" true in
  dispatch mesg = None
  /\ on_message E w mesg = []
  /\ posts (on_message E w mesg) w = []
  /\ run (on_message E w mesg) w = w.
Proof.
  intros E w mesg.
  apply (unknown_type_ignored E w w mesg); discriminate.
Defined.

Lemma run_effect_module_state (e : effect) (w : Worker) :
  private_env (run_effect e w) = private_env w
  /\ constructions (run_effect e w) = constructions w
  /\ vitePromise (run_effect e w) = vitePromise w
  /\ listening (run_effect e w) = listening w.
Proof.
  destruct e as [m tl|port fz i l r|l path m]; simpl; try done.
  - pose proof (post_all_fields
                  (finish_posts port fz i (deref (heap w) l) r) w)
      as (H1 & H2 & H3 & H4 & _).
    by destruct (heap w !! l).
  - destruct (heap w !! l) as [x|]; [|done].
    by destruct (mutate_at path m x).
Qed.

Lemma module_eval_inv (E : Env) (penv : option string) (w : Worker) :
  module_eval E penv = Some w ->
  exists s v, penv = Some s /\ JSON_parse E s = Some v
    /\ private_env w = Some v /\ constructions w = 1%nat
    /\ vitePromise w = Some (construct_vite E) /\ listening w = true
    /\ outbox w = [].
Proof.
  unfold module_eval, install_private_env. destruct penv as [s|]; [|done].
  destruct (JSON_parse E s) as [v|] eqn:Hv; [|done].
  intros [= <-]. exists s, v. simpl. done.
Qed.

Lemma reachable_module_state (E : Env) (penv : option string) (w : Worker) :
  reachable E penv w ->
  exists s v, penv = Some s /\ JSON_parse E s = Some v
    /\ private_env w = Some v /\ constructions w = 1%nat
    /\ vitePromise w = Some (construct_vite E) /\ listening w = true.
Proof.
  induction 1 as [w Hw|w l c _ IH|w e _ IH].
  - destruct (module_eval_inv _ _ _ Hw) as (s & v & ? & ? & ? & ? & ? & ? & _).
    by exists s, v.
  - exact IH.
  - destruct IH as (s & v & ? & ? & ? & ? & ? & ?).
    destruct (run_effect_module_state e w) as (-> & -> & -> & ->).
    by exists s, v.
Qed.

(** ** The Vite server behind [vitePromise] *)

(** C3 fails as stated: construction is not triggered by a caller's await.
    The declaration of [vitePromise] calls [createViteServer] while the module
    is evaluated, so right after evaluation, with no message received and
    nothing posted, the server has already been constructed. *)
Lemma construction_is_eager :
  let E := demo_env quiet_run (Fulfilled None) in
  (exists w, module_eval E (Some "{}") = Some w
     /\ outbox w = [] /\ heap w = ∅
     /\ constructions w = 1%nat
     /\ vitePromise w = Some (Fulfilled demo_vite))
  /\ ~ (forall w, module_eval E (Some "{}") = Some w ->
          constructions w = 0%nat).
Proof.
  intros E. split.
  - eexists. split; [reflexivity|]. simpl. done.
  - intros H. specialize (H _ eq_refl). simpl in H. discriminate.
Qed.

(** C3, amended: the Vite server is constructed exactly once per worker
    lifetime, when the module is evaluated; in every later state every call of
    [loadServerFile] and of [loadEntries] awaits that one settled promise: all
    of them load through the same server, or all of them reject with the
    error of the failed construction, and the count of constructions stays
    one. *)
Theorem vite_constructed_once (E : Env) (penv : option string) (w : Worker) :
  reachable E penv w ->
  constructions w = 1%nat
  /\ await_vitePromise w = construct_vite E
  /\ forall (cfg : ResolvedConfig) (fileURL : string),
       match construct_vite E with
       | Fulfilled vite =>
           loadEntries E w cfg =
             ssrLoadModule vite
               (joinPath E (config_root vite) (srcDir cfg) (entriesJs cfg))
           /\ loadServerFile E w fileURL =
                ssrLoadModule vite (fileURLToFilePath E fileURL)
       | Rejected e =>
           loadEntries E w cfg = Rejected e
           /\ loadServerFile E w fileURL = Rejected e
       end.
Proof.
  intros Hw.
  destruct (reachable_module_state _ _ _ Hw)
    as (s & v & _ & _ & _ & Hc & Hp & _).
  assert (Ha : await_vitePromise w = construct_vite E).
  { unfold await_vitePromise. by rewrite Hp. }
  split; [exact Hc|]. split; [exact Ha|].
  intros cfg fileURL. unfold loadEntries, loadServerFile. rewrite Ha.
  destruct (construct_vite E); done.
Qed.

Lemma vite_constructed_once_witness :
  let E := failing_vite_env in
  let w := run_effect (PostMessage ∅ [])
             (install_listener (declare_vitePromise E
                {| private_env := Some (JObj false []); constructions := 0;
                   vitePromise := None; listening := false; heap := ∅;
                   outbox := [] |})) in
  constructions w = 1%nat
  /\ loadEntries E w {| srcDir := "src"; entriesJs := "entries.js" |}
     = Rejected (JStr "EADDRINUSE")
  /\ loadServerFile E w "file:///app/src/a.js" = Rejected (JStr "EADDRINUSE").
Proof.
  intros E w.
  assert (Hw : reachable E (Some "{}") w).
  { apply reach_effect, reach_eval. reflexivity. }
  destruct (vite_constructed_once E (Some "{}") w Hw) as (Hc & _ & Hl).
  split; [exact Hc|].
  exact (Hl {| srcDir := "src"; entriesJs := "entries.js" |}
            "file:///app/src/a.js").
Defined.

(** ** The private environment *)

(** C10: the module parses [__WAKU_PRIVATE_ENV__] unconditionally before it
    installs the listener.  When the variable is unset or is not valid JSON the
    evaluation of the module throws, and then the worker has no state in which
    a request is handled; in every state the worker does reach, the parsed
    map is installed and the listener is on. *)
Theorem private_env_installed_or_no_worker (E : Env) :
  module_eval E None = None
  /\ (forall s, JSON_parse E s = None -> module_eval E (Some s) = None)
  /\ (forall penv, module_eval E penv = None ->
        forall w, ~ reachable E penv w)
  /\ (forall penv w, reachable E penv w ->
        exists s v, penv = Some s /\ JSON_parse E s = Some v
          /\ private_env w = Some v /\ listening w = true)
  /\ listening initial = false.
Proof.
  split; [reflexivity|]. split.
  { intros s Hs. unfold module_eval, install_private_env. by rewrite Hs. }
  split.
  { intros penv Hnone w Hw.
    destruct (reachable_module_state _ _ _ Hw) as (s & v & -> & Hv & _).
    unfold module_eval, install_private_env in Hnone.
    rewrite Hv in Hnone. discriminate. }
  split; [|reflexivity].
  intros penv w Hw.
  destruct (reachable_module_state _ _ _ Hw)
    as (s & v & ? & ? & ? & _ & _ & ?).
  by exists s, v.
Qed.

Lemma private_env_installed_or_no_worker_witness :
  let E := demo_env quiet_run (Fulfilled None) in
  module_eval E (Some "not json") = None
  /\ forall w, ~ reachable E (Some "not json") w.
Proof.
  intros E.
  destruct (private_env_installed_or_no_worker E) as (_ & H2 & H3 & _).
  split.
  - apply H2. reflexivity.
  - apply H3, H2. reflexivity.
Defined.

(** ** The SSR config session *)

Lemma handleGetSsrConfig_unfold (E : Env) (w : Worker) (mesg : MessageReq) :
  handleGetSsrConfig E w mesg =
  match ssr_outcome E w mesg with
  | Fulfilled (Some ssrConfig) =>
      try_post E (mesg_id mesg) (ssrConfig_mesg (mesg_id mesg) ssrConfig)
               [default JUndef (ssrConfig !! "body")]
  | Fulfilled None =>
      try_post E (mesg_id mesg) (noSsrConfig_mesg (mesg_id mesg)) []
  | Rejected err => [PostMessage (err_mesg (mesg_id mesg) err) []]
  end.
Proof.
  unfold handleGetSsrConfig, ssr_outcome.
  destruct (loadEntries E w (config mesg)); done.
Qed.

Lemma ssrConfig_mesg_type (i : jsval) (cfg : gmap string jsval) :
  cfg !! "type" = None ->
  ssrConfig_mesg i cfg !! "type" = Some (JStr "ssrConfig").
Proof.
  intros H. unfold ssrConfig_mesg.
  rewrite lookup_union_r by exact H. by simplify_map_eq.
Qed.

Lemma ssrConfig_mesg_field (i : jsval) (cfg : gmap string jsval)
    (k : string) (v : jsval) :
  cfg !! k = Some v -> ssrConfig_mesg i cfg !! k = Some v.
Proof. intros H. unfold ssrConfig_mesg. by apply lookup_union_Some_l. Qed.

(** What [try_post] hands to [postMessage]. *)
Lemma posts_try_post (E : Env) (i : jsval) (m : gmap string jsval)
    (tl : list jsval) (w : Worker) :
  posts (try_post E i m tl) w =
  {| posted_mesg := m; posted_transfer := tl |}
  :: match postMessage_fault E m tl with
     | Some e => [err_post i e]
     | None => []
     end.
Proof.
  unfold try_post. simpl. by destruct (postMessage_fault E m tl).
Qed.

(** C4 fails as stated, in two ways.  The resolver returns a config object
    with a property [type], and the one message the handler posts is neither
    an [ssrConfig] nor a [noSsrConfig] response, because the spread of the
    resolver's fields overwrites the [type] written before it.  The resolver
    returns a config object without a [body], the post of the [ssrConfig]
    message with the transfer list [[undefined]] throws inside [try], and the
    only message that reaches the host is the [err] response of the [catch]
    block. *)
Lemma ssrConfig_tag_overwritten :
  let E := type_clash_env in
  let w := demo_worker E (JObj false []) in
  let mesg := demo_request 1 "getSsrConfig" false in
  ((exists cfg, ssr_outcome E w mesg = Fulfilled (Some cfg))
   /\ exists p, posts (handleGetSsrConfig E w mesg) w = [p]
        /\ is_type "ssrConfig" p = false
        /\ is_type "noSsrConfig" p = false)
  /\ let E2 := demo_env quiet_run (Fulfilled (Some {[ "input" := JStr "about" ]})) in
     let w2 := demo_worker E2 (JObj false []) in
     ssr_outcome E2 w2 mesg = Fulfilled (Some {[ "input" := JStr "about" ]})
     /\ exists p, delivered E2 (posts (handleGetSsrConfig E2 w2 mesg) w2) = [p]
          /\ is_type "err" p = true
          /\ is_type "ssrConfig" p = false.
Proof.
  intros E w mesg. split; [split|].
  - eexists. reflexivity.
  - eexists. split; [reflexivity|]. split; vm_compute; reflexivity.
  - intros E2 w2. split; [reflexivity|].
    eexists. split; [vm_compute; reflexivity|]. split; vm_compute; reflexivity.
Qed.

(** C4, amended: when the resolver settles to a config object that has no
    property [id] or [type], and the port accepts the message with the
    object's [body] as the transfer list, the handler posts exactly one
    message, the [ssrConfig] response with the request's [id], every field of
    the resolver's object, and that object's [body] as the transfer list; when
    the resolver settles to nothing and the port accepts the message, it
    posts exactly one message, the [noSsrConfig] response with the request's
    [id] and nothing else. *)
Theorem getSsrConfig_response (E : Env) (w w' : Worker) (mesg : MessageReq)
    (r : option (gmap string jsval)) :
  ssr_outcome E w mesg = Fulfilled r ->
  (forall cfg, r = Some cfg -> cfg !! "id" = None /\ cfg !! "type" = None) ->
  (forall cfg, r = Some cfg ->
     postMessage_fault E (ssrConfig_mesg (mesg_id mesg) cfg)
                       [default JUndef (cfg !! "body")] = None) ->
  (r = None -> postMessage_fault E (noSsrConfig_mesg (mesg_id mesg)) [] = None) ->
  exists p : Posted,
    posts (handleGetSsrConfig E w mesg) w' = [p]
    /\ accepted E p = true
    /\ posted_id p = Some (mesg_id mesg)
    /\ match r with
       | Some cfg =>
           is_type "ssrConfig" p = true
           /\ is_type "noSsrConfig" p = false
           /\ (forall k v, cfg !! k = Some v -> posted_mesg p !! k = Some v)
           /\ (forall b, cfg !! "body" = Some b -> posted_transfer p = [b])
       | None =>
           is_type "noSsrConfig" p = true
           /\ is_type "ssrConfig" p = false
           /\ posted_mesg p =
                {[ "id" := mesg_id mesg; "type" := JStr "noSsrConfig" ]}
           /\ posted_transfer p = []
       end.
Proof.
  intros Hr Hcfg Hport Hport0. rewrite handleGetSsrConfig_unfold, Hr.
  destruct r as [cfg|]; rewrite posts_try_post.
  - rewrite (Hport cfg eq_refl). eexists. split; [reflexivity|].
    destruct (Hcfg cfg eq_refl) as [Hid Hty].
    unfold accepted, posted_id, is_type; simpl.
    rewrite (Hport cfg eq_refl).
    rewrite ssrConfig_mesg_id, ssrConfig_mesg_type by done.
    repeat split; try done.
    + intros k v. apply ssrConfig_mesg_field.
    + intros b Hb. by rewrite Hb.
  - rewrite (Hport0 eq_refl). eexists. split; [reflexivity|].
    unfold accepted, posted_id, is_type; simpl. rewrite (Hport0 eq_refl).
    rewrite noSsrConfig_mesg_id.
    unfold noSsrConfig_mesg. by simplify_map_eq.
Qed.

Lemma getSsrConfig_response_witness :
  let E := demo_env quiet_run
             (Fulfilled (Some {[ "input" := JStr "about";
                                 "body" := JStream 3 ]})) in
  let w := demo_worker E (JObj false []) in
  let mesg := demo_request 4 "getSsrConfig" false in
  exists p : Posted,
    posts (handleGetSsrConfig E w mesg) w = [p]
    /\ posted_id p = Some (JNum 4)
    /\ is_type "ssrConfig" p = true
    /\ posted_mesg p !! "input" = Some (JStr "about")
    /\ posted_transfer p = [JStream 3].
Proof.
  intros E w mesg.
  destruct (getSsrConfig_response E w w mesg
              (Some {[ "input" := JStr "about"; "body" := JStream 3 ]}))
    as (p & Hp & _ & Hid & Hty & _ & Hf & Hb).
  - reflexivity.
  - intros cfg [= <-]. split; reflexivity.
  - intros cfg [= <-]. vm_compute. reflexivity.
  - discriminate.
  - exists p. split; [exact Hp|]. split; [exact Hid|]. split; [exact Hty|].
    split; [apply Hf; reflexivity|apply Hb; reflexivity].
Defined.

(** ** Error responses *)

Lemma err_mesg_statusCode (i err : jsval) :
  err_mesg i err !! "statusCode" = statusCode_of err.
Proof.
  unfold err_mesg, hasStatusCode, has_prop, get_prop, statusCode_of.
  destruct err as [| | | | |fr ps]; try by simplify_map_eq.
  destruct (assoc "statusCode" ps) as [v|] eqn:Hv.
  - rewrite bool_decide_eq_true_2 by (by eexists). by simplify_map_eq.
  - rewrite bool_decide_eq_false_2 by (by intros [? ?]). by simplify_map_eq.
Qed.



(** ** Module ids *)







(** ** Freezing the context *)

(** A deep-frozen value refuses every mutation, at every path. *)
Lemma mutate_at_deepFreeze (path : list string) (m : mutation) (x : jsval) :
  mutate_at path m (deepFreeze x) = None.
Proof.
  revert x. induction path as [|k path IH]; intros x.
  - destruct x; done.
  - destruct x as [| | | | |fr ps]; try done. simpl.
    assert (Hps : update_at k (mutate_at path m)
              (map (fun kv => let '(k0, v) := kv in (k0, deepFreeze v)) ps)
            = None).
    { induction ps as [|[k' v] ps IHps]; simpl; [done|].
      destruct (String.eqb k k'); [by rewrite IH|by rewrite IHps]. }
    by rewrite Hps.
Qed.

(** Freezing twice is freezing once. *)
Lemma deepFreeze_idem (x : jsval) : deepFreeze (deepFreeze x) = deepFreeze x.
Proof.
  revert x. fix deepFreeze_idem 1. intros x.
  destruct x as [| | | | |fr ps]; try reflexivity.
  simpl. f_equal. revert ps.
  fix IHps 1. intros [|[k v] ps]; simpl; [reflexivity|].
  f_equal; [f_equal; apply deepFreeze_idem|apply IHps].
Qed.


(** Once the object at [l] is deep-frozen, no effect changes it again, the
    end of another render on the same object apart. *)
Lemma run_effect_frozen (e : effect) (w : Worker) (l : loc) (c : jsval) :
  not_finish_of l e ->
  heap w !! l = Some (deepFreeze c) ->
  heap (run_effect e w) !! l = Some (deepFreeze c).
Proof.
  intros Hnf Hl. destruct e as [m tl|port fz i l' r|l' path m]; try done.
  - simpl in Hnf. rewrite heap_run_finish.
    destruct (heap w !! l'); [|done]. by rewrite lookup_insert_ne.
  - simpl. destruct (heap w !! l') as [x|] eqn:Hx; simpl; [|done].
    destruct (mutate_at path m x) as [x'|] eqn:Hm; simpl; [|done].
    destruct (decide (l' = l)) as [->|Hne].
    + rewrite Hl in Hx. injection Hx as <-.
      by rewrite mutate_at_deepFreeze in Hm.
    + by rewrite lookup_insert_ne.
Qed.

Lemma run_frozen (es : list effect) (w : Worker) (l : loc) (c : jsval) :
  Forall (not_finish_of l) es ->
  heap w !! l = Some (deepFreeze c) ->
  heap (run es w) !! l = Some (deepFreeze c).
Proof.
  intros Hes. revert w.
  induction Hes as [|e es He _ IH]; intros w Hl; [done|].
  change (run (e :: es) w) with (run es (run_effect e w)).
  by apply IH, run_effect_frozen.
Qed.

(** No effect removes an object from the heap. *)
Lemma run_keeps_object (es : list effect) (w : Worker) (l : loc) :
  is_Some (heap w !! l) -> is_Some (heap (run es w) !! l).
Proof.
  revert w. induction es as [|e es IH]; intros w Hl; [done|].
  change (run (e :: es) w) with (run es (run_effect e w)). apply IH.
  destruct e as [m tl|port fz i l' r|l' path m]; try done.
  - rewrite heap_run_finish. destruct (heap w !! l') as [x|] eqn:Hx; [|done].
    destruct (decide (l' = l)) as [->|Hne].
    + by rewrite lookup_insert_eq.
    + by rewrite lookup_insert_ne.
  - simpl. destruct (heap w !! l') as [x|] eqn:Hx; simpl; [|done].
    destruct (mutate_at path m x) as [x'|]; simpl; [|done].
    destruct (decide (l' = l)) as [->|Hne].
    + by rewrite lookup_insert_eq.
    + by rewrite lookup_insert_ne.
Qed.

Lemma start_mesg_context (i c r : jsval) :
  start_mesg i c r !! "context" = Some c.
Proof. unfold start_mesg. by simplify_map_eq. Qed.

Lemma start_mesg_stream (i c r : jsval) :
  start_mesg i c r !! "stream" = Some r.
Proof. unfold start_mesg. by simplify_map_eq. Qed.

Lemma handleRender_fulfilled (E : Env) (w : Worker) (mesg : MessageReq)
    (readable : jsval) :
  render_outcome E w mesg = Fulfilled readable ->
  handleRender E w mesg =
  awaiting E w mesg
  ++ [Finish (postMessage_fault E) (deepFreeze_fault E)
             (mesg_id mesg) (context mesg) readable].
Proof. intros Hout. rewrite handleRender_unfold, Hout. reflexivity. Qed.

(** C7 fails as stated, in two ways.  [renderRsc] resolves, but the pipeline
    has put a stream into the context, so the post of [start] throws: the
    [catch] block answers [err], [deepFreeze] is never reached and the context
    stays mutable.  Or [start] is delivered and [deepFreeze] throws after it
    has frozen the context object itself: an object inside the context stays
    mutable. *)
Lemma context_left_mutable_after_render :
  let mesg := demo_request 3 "render" false in
  (let E := demo_env {| actions := [Write [] (Assign "body" (JStream 9))];
                        outcome := Fulfilled (JStream 7) |} (Fulfilled None) in
   let w := demo_worker E (JObj false []) in
   render_outcome E w mesg = Fulfilled (JStream 7)
   /\ (exists p, delivered E (posts (handleRender E w mesg) w) = [p]
         /\ is_type "err" p = true)
   /\ exists c', heap (run (handleRender E w mesg) w) !! 0%nat = Some c'
         /\ is_Some (mutate_at [] (Assign "k" JUndef) c'))
  /\ (let E := demo_env_with quiet_run [] (Fulfilled None) freeze_fails in
      let w := demo_worker E (JObj false [("session", JObj false [])]) in
      render_outcome E w mesg = Fulfilled (JStream 7)
      /\ (exists p q, delivered E (posts (handleRender E w mesg) w) = [p; q]
            /\ is_type "start" p = true)
      /\ exists c', heap (run (handleRender E w mesg) w) !! 0%nat = Some c'
            /\ is_Some (mutate_at ["session"] (Assign "k" JUndef) c')).
Proof.
  intros mesg. split.
  - intros E w. split; [reflexivity|]. split.
    + eexists. split; vm_compute; reflexivity.
    + eexists. split; [vm_compute; reflexivity|]. vm_compute. by eexists.
  - intros E w. split; [reflexivity|]. split.
    + eexists. eexists. split; vm_compute; reflexivity.
    + eexists. split; [vm_compute; reflexivity|]. vm_compute. by eexists.
Qed.

(** C7, amended: when [renderRsc] resolves, the port accepts the [start]
    message and [deepFreeze] completes, the handler's last step posts the
    [start] message and then freezes the context.  The [start] message is the
    last one handed to the port; it has the request's [id], the type [start],
    the context object as the pipeline left it, and the stream, which is also
    its transfer list.  Afterwards the context in the heap is deep-frozen:
    every mutation of it throws and changes nothing, whatever the pipeline or
    another handler does later. *)
Theorem start_posted_then_context_frozen (E : Env) (w w' : Worker)
    (mesg : MessageReq) (readable c : jsval) :
  render_outcome E w mesg = Fulfilled readable ->
  render_caught E w w' mesg = None ->
  heap w' !! context mesg = Some c ->
  exists (c1 : jsval) (p : Posted),
    handleRender E w mesg =
      awaiting E w mesg
      ++ [Finish (postMessage_fault E) (deepFreeze_fault E)
                 (mesg_id mesg) (context mesg) readable]
    /\ heap (run (awaiting E w mesg) w') !! context mesg = Some c1
    /\ posts (handleRender E w mesg) w' = posts (awaiting E w mesg) w' ++ [p]
    /\ last (outbox (run (handleRender E w mesg) w')) = Some p
    /\ accepted E p = true
    /\ posted_mesg p !! "id" = Some (mesg_id mesg)
    /\ posted_mesg p !! "type" = Some (JStr "start")
    /\ posted_mesg p !! "context" = Some c1
    /\ posted_mesg p !! "stream" = Some readable
    /\ posted_transfer p = [readable]
    /\ heap (run (handleRender E w mesg) w') !! context mesg
         = Some (deepFreeze c1)
    /\ (forall path m, mutate_at path m (deepFreeze c1) = None)
    /\ (forall path m,
          run_effect (Mutate (context mesg) path m)
                     (run (handleRender E w mesg) w')
          = run (handleRender E w mesg) w')
    /\ (forall es, Forall (not_finish_of (context mesg)) es ->
          heap (run es (run (handleRender E w mesg) w')) !! context mesg
          = Some (deepFreeze c1)).
Proof.
  intros Hout Hcaught Hc.
  destruct (run_keeps_object (awaiting E w mesg) w' (context mesg))
    as [c1 Hc1]; [by eexists|].
  unfold render_caught in Hcaught. rewrite Hout in Hcaught.
  unfold deref in Hcaught. rewrite Hc1 in Hcaught. simpl in Hcaught.
  destruct (postMessage_fault E (start_mesg (mesg_id mesg) c1 readable)
                              [readable]) as [e|] eqn:Hport; [done|].
  destruct (deepFreeze_fault E c1) as [[c' e]|] eqn:Hfz; [done|].
  pose proof (handleRender_fulfilled E w mesg readable Hout) as Hh.
  assert (Hposts : finish_posts (postMessage_fault E) (deepFreeze_fault E)
                     (mesg_id mesg) c1 readable
                   = [{| posted_mesg := start_mesg (mesg_id mesg) c1 readable;
                         posted_transfer := [readable] |}]).
  { unfold finish_posts. by rewrite Hport, Hfz. }
  assert (Hfinal : heap (run (handleRender E w mesg) w') !! context mesg
                   = Some (deepFreeze c1)).
  { rewrite Hh, run_app.
    change (run [?e] ?w0) with (run_effect e w0).
    rewrite heap_run_finish, Hc1, lookup_insert_eq.
    unfold finish_context. by rewrite Hport, Hfz. }
  assert (Hp : posts (handleRender E w mesg) w'
               = posts (awaiting E w mesg) w'
                 ++ [{| posted_mesg := start_mesg (mesg_id mesg) c1 readable;
                        posted_transfer := [readable] |}]).
  { rewrite Hh, posts_app. simpl. unfold deref. rewrite Hc1. simpl.
    by rewrite Hposts. }
  exists c1. eexists.
  split; [exact Hh|]. split; [exact Hc1|]. split; [exact Hp|]. split.
  { by rewrite outbox_run, Hp, app_assoc, last_snoc. }
  split; [unfold accepted; simpl; by rewrite Hport|].
  simpl. rewrite start_mesg_id, start_mesg_type, start_mesg_context,
    start_mesg_stream.
  do 5 (split; [reflexivity|]).
  split; [exact Hfinal|].
  split; [intros path m; apply mutate_at_deepFreeze|]. split.
  - intros path m. simpl. rewrite Hfinal. by rewrite mutate_at_deepFreeze.
  - intros es Hes. by apply run_frozen.
Qed.

Lemma start_posted_then_context_frozen_witness :
  let E := demo_env {| actions := [Write [] (Assign "user" (JStr "ann"))];
                       outcome := Fulfilled (JStream 7) |} (Fulfilled None) in
  let c := JObj false [("session", JObj false [])] in
  let w := demo_worker E c in
  let mesg := demo_request 3 "render" false in
  exists (c1 : jsval) (p : Posted),
    last (outbox (run (handleRender E w mesg) w)) = Some p
    /\ posted_mesg p !! "context" = Some c1
    /\ posted_mesg p !! "stream" = Some (JStream 7)
    /\ heap (run (handleRender E w mesg) w) !! 0%nat = Some (deepFreeze c1)
    /\ mutate_at ["session"] (Assign "k" JUndef) (deepFreeze c1) = None.
Proof.
  intros E c w mesg.
  destruct (start_posted_then_context_frozen E w w mesg (JStream 7) c
              eq_refl eq_refl eq_refl)
    as (c1 & p & _ & _ & _ & Hlast & _ & _ & _ & Hctx & Hstr & _ & Hheap
        & Hmut & _).
  exists c1, p. split; [exact Hlast|]. split; [exact Hctx|].
  split; [exact Hstr|]. split; [exact Hheap|apply Hmut].
Defined.

(** ** The context on the error path *)






(** ** What depends on the heap only *)

Lemma effect_posts_heap (e : effect) (w1 w2 : Worker) :
  heap w1 = heap w2 -> effect_posts e w1 = effect_posts e w2.
Proof. intros H. destruct e; simpl; by rewrite ?H. Qed.

Lemma run_effect_heap (e : effect) (w1 w2 : Worker) :
  heap w1 = heap w2 -> heap (run_effect e w1) = heap (run_effect e w2).
Proof.
  intros H. destruct e as [m tl|port fz i l r|l path m]; try done.
  - by rewrite !heap_run_finish, H.
  - simpl. rewrite H. destruct (heap w2 !! l) as [x|]; simpl; [|done].
    by destruct (mutate_at path m x); simpl; rewrite ?H.
Qed.

Lemma posts_heap (es : list effect) (w1 w2 : Worker) :
  heap w1 = heap w2 -> posts es w1 = posts es w2.
Proof.
  revert w1 w2. induction es as [|e es IH]; intros w1 w2 H; simpl; [done|].
  rewrite (effect_posts_heap e w1 w2 H).
  by rewrite (IH _ _ (run_effect_heap e w1 w2 H)).
Qed.

Lemma run_heap (es : list effect) (w1 w2 : Worker) :
  heap w1 = heap w2 -> heap (run es w1) = heap (run es w2).
Proof.
  revert w1 w2. induction es as [|e es IH]; intros w1 w2 H; [done|].
  change (run (e :: es) w1) with (run es (run_effect e w1)).
  change (run (e :: es) w2) with (run es (run_effect e w2)).
  by apply IH, run_effect_heap.
Qed.

(** ** The broadcaster *)

(** X6: each plugin event is forwarded as exactly one message with no [id]
    and an empty transfer list, and the heap is left alone.  A reload event is
    forwarded as [{ type }]; an import whose [typeof] is [object] as a
    [module-import] message with [result] and no [source], any other import
    as a [hot-import] message with [source] and no [result]. *)
Theorem broadcast_message (ev : plugin_event) (w : Worker) :
  exists p : Posted,
    posts (broadcast ev) w = [p]
    /\ posted_id p = None
    /\ posted_transfer p = []
    /\ heap (run (broadcast ev) w) = heap w
    /\ match ev with
       | Reload type => posted_mesg p = {[ "type" := JStr type ]}
       | Import v =>
           if String.eqb (typeof v) "object"
           then is_type "module-import" p = true
                /\ posted_mesg p !! "result" = Some v
                /\ posted_mesg p !! "source" = None
           else is_type "hot-import" p = true
                /\ posted_mesg p !! "source" = Some v
                /\ posted_mesg p !! "result" = None
       end.
Proof.
  destruct ev as [type|v]; simpl.
  - eexists. split; [reflexivity|]. unfold posted_id. simpl.
    by simplify_map_eq.
  - unfold delegate_callback. eexists. split; [reflexivity|].
    unfold posted_id, is_type. simpl.
    destruct (String.eqb (typeof v) "object"); by simplify_map_eq.
Qed.

Lemma filter_all {A : Type} (f : A -> bool) (l : list A) :
  Forall (fun a => f a = true) l -> List.filter f l = l.
Proof. induction 1 as [|a l Ha _ IH]; simpl; [done|]. by rewrite Ha, IH. Qed.

Lemma filter_none {A : Type} (f : A -> bool) (l : list A) :
  Forall (fun a => f a = false) l -> List.filter f l = [].
Proof. induction 1 as [|a l Ha _ IH]; simpl; [done|]. by rewrite Ha. Qed.

(** Effects that post uncorrelated messages only and leave the heap alone,
    interleaved with effects that post correlated messages only: the
    correlated messages of the whole are those of the latter run alone. *)
Lemma interleave_uncorrelated (es bs t : list effect) :
  interleave es bs t ->
  Forall (fun e => forall w,
            Forall (fun p => correlated p = true) (effect_posts e w)) es ->
  Forall (fun e => forall w,
            heap (run_effect e w) = heap w
            /\ Forall (fun p => correlated p = false) (effect_posts e w)) bs ->
  forall w,
    List.filter correlated (posts t w) = posts es w
    /\ heap (run t w) = heap (run es w).
Proof.
  induction 1 as [|a es bs t _ IH|b es bs t _ IH]; intros Hes Hbs w.
  - done.
  - inversion Hes as [|? ? Ha Hes']; subst.
    destruct (IH Hes' Hbs (run_effect a w)) as [IHp IHh].
    split.
    + simpl. by rewrite List.filter_app, (filter_all _ _ (Ha w)), IHp.
    + exact IHh.
  - inversion Hbs as [|? ? Hb Hbs']; subst.
    destruct (Hb w) as [Hheap Hnone].
    destruct (IH Hes Hbs' (run_effect b w)) as [IHp IHh].
    split.
    + simpl. rewrite List.filter_app, (filter_none _ _ Hnone), IHp. simpl.
      by apply posts_heap.
    + change (run (b :: t) w) with (run t (run_effect b w)).
      rewrite IHh. by apply run_heap.
Qed.

Lemma broadcast_uncorrelated (evs : list plugin_event) :
  Forall (fun e => forall w,
            heap (run_effect e w) = heap w
            /\ Forall (fun p => correlated p = false) (effect_posts e w))
         (flat_map broadcast evs).
Proof.
  apply Forall_flat_map, Forall_forall. intros ev _.
  destruct ev as [type|v]; simpl; (constructor; [|constructor]); intros w;
    (split; [reflexivity|]); (constructor; [|constructor]);
    unfold correlated, posted_id; simpl;
    apply bool_decide_eq_false_2; intros [x Hx].
  - by simplify_map_eq.
  - destruct (String.eqb (typeof v) "object"); by simplify_map_eq.
Qed.

Lemma handleRender_correlated (E : Env) (w : Worker) (mesg : MessageReq) :
  Forall (fun e => forall w0,
            Forall (fun p => correlated p = true) (effect_posts e w0))
         (handleRender E w mesg).
Proof.
  pose proof (handleRender_posts_only_id E w mesg) as H.
  apply (proj1 (Forall_map _ _ _)) in H. eapply Forall_impl; [exact H|].
  intros e He w0. specialize (He w0). simpl in He.
  eapply Forall_impl; [exact He|]. intros p Hp.
  unfold correlated. apply bool_decide_eq_true_2. rewrite Hp. by eexists.
Qed.

(** X7: plugin events may be forwarded at any point of a render session.
    However their messages interleave with the session's effects, the
    correlated messages of the whole stream are exactly the messages the
    session posts when it runs alone, in the same order and with the same
    content, and the heap ends as the session alone leaves it. *)
Theorem render_session_undisturbed_by_events (E : Env) (w w' : Worker)
    (mesg : MessageReq) (evs : list plugin_event) (t : list effect) :
  interleave (handleRender E w mesg) (flat_map broadcast evs) t ->
  List.filter correlated (posts t w') = posts (handleRender E w mesg) w'
  /\ heap (run t w') = heap (run (handleRender E w mesg) w').
Proof.
  intros Ht.
  apply (interleave_uncorrelated _ _ _ Ht).
  - apply handleRender_correlated.
  - apply broadcast_uncorrelated.
Qed.

Lemma render_session_undisturbed_by_events_witness :
  let E := demo_env {| actions := [Report "m1"];
                       outcome := Fulfilled (JStream 7) |} (Fulfilled None) in
  let w := demo_worker E (JObj false []) in
  let mesg := demo_request 9 "render" true in
  let evs := [Reload "full-reload"; Import (JStr "./a.js")] in
  List.filter correlated
    (posts (handleRender E w mesg ++ flat_map broadcast evs) w)
  = posts (handleRender E w mesg) w.
Proof.
  intros E w mesg evs.
  apply (render_session_undisturbed_by_events E w w mesg evs
           (handleRender E w mesg ++ flat_map broadcast evs)).
  apply interleave_app.
Defined.

(** ** More on the render session *)

Lemma finish_posts_shape
    (port : gmap string jsval -> list jsval -> option jsval)
    (fz : jsval -> option (jsval * jsval)) (i c r : jsval) :
  exists rest,
    finish_posts port fz i c r =
      {| posted_mesg := start_mesg i c r; posted_transfer := [r] |} :: rest
    /\ (rest = [] \/ exists e, rest = [err_post i e]).
Proof.
  unfold finish_posts.
  destruct (port (start_mesg i c r) [r]) as [e|];
    [|destruct (fz c) as [[c' e]|]]; eexists; (split; [reflexivity|]);
    first [by left | right; by eexists].
Qed.

Lemma is_type_start_post (i c r : jsval) (tl : list jsval) (t : string) :
  is_type t {| posted_mesg := start_mesg i c r; posted_transfer := tl |}
  = String.eqb "start" t.
Proof. unfold is_type. simpl. by rewrite start_mesg_type. Qed.

Lemma is_type_err_post (i e : jsval) (t : string) :
  is_type t (err_post i e) = String.eqb "err" t.
Proof. unfold is_type. simpl. by rewrite err_mesg_type. Qed.

(** X1: without [hasModuleIdCallback] no callback is installed: whatever
    module ids the pipeline reports, while [renderRsc] is awaited or after it
    has settled, no [moduleId] message is posted for the request.  The
    session hands one or two messages to the port, each a [start] or [err]
    response with the request's [id]. *)
Theorem no_callback_no_moduleId (E : Env) (w w' : Worker)
    (mesg : MessageReq) :
  hasModuleIdCallback mesg = false ->
  (1 <= length (posts (render_session E w mesg) w') <= 2)%nat
  /\ Forall (fun p => terminal p = true
                      /\ is_type "moduleId" p = false
                      /\ posted_id p = Some (mesg_id mesg))
            (posts (render_session E w mesg) w').
Proof.
  intros Hcb. unfold render_session.
  rewrite posts_app, handleRender_unfold, posts_app, !posts_pipeline, Hcb.
  rewrite app_nil_r. simpl.
  destruct (render_outcome E w mesg) as [readable|err]; simpl.
  - rewrite app_nil_r.
    match goal with |- context [finish_posts ?a ?b ?c ?d ?e] =>
      destruct (finish_posts_shape a b c d e) as (rest & -> & [->|[e0 ->]]) end;
      simpl; (split; [lia|]);
      repeat (constructor;
        [rewrite ?terminal_start, ?terminal_err_post, ?is_type_start_post,
           ?is_type_err_post; unfold posted_id; simpl;
         rewrite ?start_mesg_id, ?err_mesg_id; done|]);
      constructor.
  - split; [lia|]. constructor; [|constructor].
    pose proof (terminal_err_post (mesg_id mesg) err) as Ht.
    pose proof (is_type_err_post (mesg_id mesg) err "moduleId") as Hm.
    unfold err_post in Ht, Hm. rewrite Ht, Hm. unfold posted_id. simpl.
    by rewrite err_mesg_id.
Qed.

Lemma no_callback_no_moduleId_witness :
  let E := demo_env_with {| actions := [Report "m1"; Report "m2"];
                            outcome := Fulfilled (JStream 7) |}
             [Report "m3"] (Fulfilled None) (fun _ => None) in
  let w := demo_worker E (JObj false []) in
  Forall (fun p => terminal p = true
                   /\ is_type "moduleId" p = false
                   /\ posted_id p = Some (JNum 2))
         (posts (render_session E w (demo_request 2 "render" false)) w).
Proof.
  intros E w.
  apply (no_callback_no_moduleId E w w (demo_request 2 "render" false)).
  reflexivity.
Defined.

(** X8: the stream is the only thing a render session transfers.  Every
    message [handleRender] posts has an empty transfer list, except the
    [start] message, whose transfer list is exactly its own [stream] field. *)
Theorem render_transfers_only_the_stream (E : Env) (w w' : Worker)
    (mesg : MessageReq) :
  Forall (fun p =>
            (is_type "start" p = false /\ posted_transfer p = [])
            \/ (is_type "start" p = true
                /\ exists s, posted_transfer p = [s]
                     /\ posted_mesg p !! "stream" = Some s))
         (posts (handleRender E w mesg) w').
Proof.
  rewrite handleRender_unfold, posts_app, posts_pipeline.
  apply Forall_app. split.
  - destruct (hasModuleIdCallback mesg); [|constructor].
    apply Forall_map, Forall_forall. intros m _. left.
    unfold is_type, moduleId_post. simpl. by rewrite moduleId_mesg_type.
  - destruct (render_outcome E w mesg) as [readable|err]; simpl.
    + rewrite app_nil_r.
      match goal with |- context [finish_posts ?a ?b ?c ?d ?e] =>
        destruct (finish_posts_shape a b c d e) as (rest & -> & Hrest) end.
      constructor.
      * right. rewrite is_type_start_post. split; [done|].
        exists readable. split; [done|]. simpl. apply start_mesg_stream.
      * destruct Hrest as [->|[e ->]]; [constructor|].
        constructor; [|constructor]. left.
        by rewrite is_type_err_post.
    + constructor; [|constructor]. left.
      unfold is_type. simpl. by rewrite err_mesg_type.
Qed.

(** ** When loading the entries fails *)

(** X2: when a handler awaits [loadEntries] and [vitePromise] is rejected,
    or the Vite server fails to load the entries module, the handler hands
    exactly one message to the port: the [err] response with the request's
    [id] and that error, without a transfer list.  The pipelines are not run:
    nothing else is posted and the heap is not touched. *)
Theorem load_failure_answered_with_err (E : Env) (w w' : Worker)
    (mesg : MessageReq) (e : jsval) :
  (vitePromise w = Some (Rejected e)
   \/ exists vite,
        vitePromise w = Some (Fulfilled vite)
        /\ ssrLoadModule vite
             (joinPath E (config_root vite) (srcDir (config mesg))
                       (entriesJs (config mesg))) = Rejected e) ->
  (mesg_type mesg = "render" \/ mesg_type mesg = "getSsrConfig") ->
  (exists p, posts (on_message E w mesg) w' = [p]
     /\ posted_mesg p !! "id" = Some (mesg_id mesg)
     /\ posted_mesg p !! "type" = Some (JStr "err")
     /\ posted_mesg p !! "err" = Some e
     /\ posted_transfer p = [])
  /\ heap (run (on_message E w mesg) w') = heap w'.
Proof.
  intros Hfail Hty.
  assert (Hl : loadEntries E w (config mesg) = Rejected e).
  { unfold loadEntries, await_vitePromise.
    destruct Hfail as [->|(vite & -> & Hload)]; [done|exact Hload]. }
  assert (Hh : on_message E w mesg =
               [PostMessage (err_mesg (mesg_id mesg) e) []]).
  { unfold on_message, dispatch.
    destruct Hty as [->| ->]; simpl.
    - unfold handleRender. by rewrite Hl.
    - unfold handleGetSsrConfig. by rewrite Hl. }
  rewrite Hh. split; [|done]. eexists. split; [reflexivity|]. simpl.
  by rewrite err_mesg_id, err_mesg_type, err_mesg_err.
Qed.

Lemma load_failure_answered_with_err_witness :
  let E := ws_close_fails_env in
  let w := demo_worker E (JObj false []) in
  let mesg := demo_request 6 "render" true in
  (exists p, posts (on_message E w mesg) w = [p]
     /\ posted_mesg p !! "id" = Some (JNum 6)
     /\ posted_mesg p !! "type" = Some (JStr "err")
     /\ posted_mesg p !! "err" = Some (JStr "ws closed twice")
     /\ posted_transfer p = [])
  /\ heap (run (on_message E w mesg) w) = heap w.
Proof.
  intros E w mesg.
  apply (load_failure_answered_with_err E w w mesg (JStr "ws closed twice")).
  - left. reflexivity.
  - left. reflexivity.
Defined.

(** ** Which objects a session writes to *)

Lemma run_effect_untouched (e : effect) (w : Worker) (l : loc) :
  touches l e = false -> heap (run_effect e w) !! l = heap w !! l.
Proof.
  destruct e as [m tl|port fz i l' r|l' path m]; try done; intros Hne;
    apply Nat.eqb_neq in Hne.
  - rewrite heap_run_finish. destruct (heap w !! l') as [x|]; [|done].
    by rewrite lookup_insert_ne.
  - simpl. destruct (heap w !! l') as [x|]; simpl; [|done].
    destruct (mutate_at path m x); simpl; [|done].
    by rewrite lookup_insert_ne.
Qed.


(** What an effect leaves at [l] depends on what was at [l] only. *)
Lemma run_effect_local (e : effect) (w1 w2 : Worker) (l : loc) :
  heap w1 !! l = heap w2 !! l ->
  heap (run_effect e w1) !! l = heap (run_effect e w2) !! l.
Proof.
  intros H. destruct (touches l e) eqn:Ht.
  - destruct e as [m tl|port fz i l' r|l' path m]; simpl in Ht; try done;
      apply Nat.eqb_eq in Ht; subst l'.
    + rewrite !heap_run_finish, <- H.
      destruct (heap w1 !! l) as [x|] eqn:H1.
      * by rewrite !lookup_insert_eq.
      * rewrite <- H. by rewrite ?H1.
    + simpl; rewrite <- H. destruct (heap w1 !! l) as [x|] eqn:H1; simpl.
      * destruct (mutate_at path m x); simpl.
        -- by rewrite !lookup_insert_eq.
        -- rewrite <- H. by rewrite ?H1.
      * rewrite <- H. by rewrite ?H1.
  - by rewrite !run_effect_untouched.
Qed.

Lemma run_local (es : list effect) (w1 w2 : Worker) (l : loc) :
  heap w1 !! l = heap w2 !! l ->
  heap (run es w1) !! l = heap (run es w2) !! l.
Proof.
  revert w1 w2. induction es as [|e es IH]; intros w1 w2 H; [done|].
  change (run (e :: es) w1) with (run es (run_effect e w1)).
  change (run (e :: es) w2) with (run es (run_effect e w2)).
  by apply IH, run_effect_local.
Qed.

Lemma interleave_sym {A : Type} (l1 l2 l : list A) :
  interleave l1 l2 l -> interleave l2 l1 l.
Proof. induction 1; by constructor. Qed.

(** Effects that do not write to [l], interleaved with others: the object at
    [l] ends as the others alone leave it. *)
Lemma interleave_untouched (es1 es2 t : list effect) (l : loc) :
  interleave es1 es2 t ->
  Forall (fun e => touches l e = false) es2 ->
  forall w, heap (run t w) !! l = heap (run es1 w) !! l.
Proof.
  induction 1 as [|a es1 es2 t _ IH|b es1 es2 t _ IH]; intros H2 w.
  - done.
  - change (run (a :: t) w) with (run t (run_effect a w)).
    change (run (a :: es1) w) with (run es1 (run_effect a w)).
    by apply IH.
  - inversion H2 as [|? ? Hb H2']; subst.
    change (run (b :: t) w) with (run t (run_effect b w)).
    rewrite (IH H2'). apply run_local. by apply run_effect_untouched.
Qed.

(** A handler writes to the context of its own request and to nothing else. *)
Lemma on_message_touches (E : Env) (w : Worker) (mesg : MessageReq) (l : loc) :
  l <> context mesg ->
  Forall (fun e => touches l e = false) (on_message E w mesg).
Proof.
  intros Hne. apply Nat.eqb_neq in Hne.
  unfold on_message. destruct (dispatch mesg) as [[|]|]; [| |constructor].
  - rewrite handleRender_unfold. apply Forall_app. split.
    + apply Forall_flat_map, Forall_forall. intros a _.
      destruct a as [m|path mu]; simpl.
      * destruct (hasModuleIdCallback mesg); repeat constructor.
      * repeat constructor. exact Hne.
    + destruct (render_outcome E w mesg); repeat constructor. exact Hne.
  - unfold handleGetSsrConfig, try_post.
    destruct (loadEntries E w (config mesg)); [|repeat constructor].
    match goal with |- context [getSsrConfig E ?a] =>
      destruct (getSsrConfig E a) as [[cfg|]|e] end;
      repeat match goal with |- context [postMessage_fault E ?m ?tl] =>
        destruct (postMessage_fault E m tl) end; repeat constructor.
Qed.




(** X9: two requests whose contexts are different objects, handled
    concurrently: however the effects of the two handlers interleave, each
    context ends exactly as its own handler leaves it when it runs alone. *)
Theorem concurrent_sessions_keep_their_contexts (E : Env) (w w' : Worker)
    (r1 r2 : MessageReq) (t : list effect) :
  context r1 <> context r2 ->
  interleave (on_message E w r1) (on_message E w r2) t ->
  heap (run t w') !! context r1
    = heap (run (on_message E w r1) w') !! context r1
  /\ heap (run t w') !! context r2
    = heap (run (on_message E w r2) w') !! context r2.
Proof.
  intros Hne Ht. split.
  - apply (interleave_untouched _ _ _ _ Ht). by apply on_message_touches.
  - apply (interleave_untouched _ _ _ _ (interleave_sym _ _ _ Ht)).
    apply on_message_touches. congruence.
Qed.

Lemma concurrent_sessions_keep_their_contexts_witness :
  let E := demo_env {| actions := [Write [] (Assign "user" (JStr "ann"))];
                       outcome := Fulfilled (JStream 7) |} (Fulfilled None) in
  let w := set_heap {[ 0%nat := JObj false []; 1%nat := JObj false [] ]}
             (demo_worker E JUndef) in
  let r1 := demo_request 1 "render" false in
  let r2 := {| mesg_id := JNum 2; mesg_type := "render";
               config := {| srcDir := "src"; entriesJs := "entries.js" |};
               input := "index"; searchParamsString := ""; method := "GET";
               context := 1%nat; stream := JUndef; contentType := JUndef;
               hasModuleIdCallback := false; pathname := "/" |} in
  heap (run (on_message E w r1 ++ on_message E w r2) w) !! 0%nat
    = heap (run (on_message E w r1) w) !! 0%nat
  /\ heap (run (on_message E w r1 ++ on_message E w r2) w) !! 1%nat
    = heap (run (on_message E w r2) w) !! 1%nat.
Proof.
  intros E w r1 r2.
  apply (concurrent_sessions_keep_their_contexts E w w r1 r2
           (on_message E w r1 ++ on_message E w r2)).
  - discriminate.
  - apply interleave_app.
Defined.

(** ** More on the SSR config session *)

(** X4: [handleGetSsrConfig] writes nothing to the heap and hands one message
    to the port, or two.  When the awaited calls are fulfilled the first
    message is the response: for a config object it has every field of that
    object with its value (the object's fields win over [id] and [type]) and
    the object's [body] as the transfer list, [undefined] when it has none;
    for no config it is [{ id, type: 'noSsrConfig' }] without a transfer list.
    If the port takes it, it is the only message; if the port throws [e] on
    it, the [catch] block posts the [err] response with the request's [id]
    and [e] after it.  When an awaited call rejects, the one message is the
    [err] response with that error. *)
Theorem getSsrConfig_one_or_two_messages (E : Env) (w w' : Worker)
    (mesg : MessageReq) :
  heap (run (handleGetSsrConfig E w mesg) w') = heap w'
  /\ exists p : Posted,
       match ssr_outcome E w mesg with
       | Fulfilled r =>
           match postMessage_fault E (posted_mesg p) (posted_transfer p) with
           | None => posts (handleGetSsrConfig E w mesg) w' = [p]
           | Some e =>
               exists q, posts (handleGetSsrConfig E w mesg) w' = [p; q]
                 /\ posted_mesg q !! "id" = Some (mesg_id mesg)
                 /\ posted_mesg q !! "type" = Some (JStr "err")
                 /\ posted_mesg q !! "err" = Some e
                 /\ posted_transfer q = []
           end
           /\ match r with
              | Some cfg =>
                  (forall k v, cfg !! k = Some v ->
                               posted_mesg p !! k = Some v)
                  /\ (forall k, cfg !! k = None -> k <> "id" -> k <> "type" ->
                                posted_mesg p !! k = None)
                  /\ posted_transfer p = [default JUndef (cfg !! "body")]
              | None =>
                  posted_mesg p =
                    {[ "id" := mesg_id mesg; "type" := JStr "noSsrConfig" ]}
                  /\ posted_transfer p = []
              end
       | Rejected err =>
           posts (handleGetSsrConfig E w mesg) w' = [p]
           /\ posted_mesg p !! "id" = Some (mesg_id mesg)
           /\ posted_mesg p !! "type" = Some (JStr "err")
           /\ posted_mesg p !! "err" = Some err
           /\ posted_transfer p = []
       end.
Proof.
  rewrite handleGetSsrConfig_unfold.
  destruct (ssr_outcome E w mesg) as [[cfg|]|err].
  - split.
    { unfold try_post.
      by destruct (postMessage_fault E (ssrConfig_mesg (mesg_id mesg) cfg)
                     [default JUndef (cfg !! "body")]). }
    exists {| posted_mesg := ssrConfig_mesg (mesg_id mesg) cfg;
              posted_transfer := [default JUndef (cfg !! "body")] |}.
    rewrite posts_try_post. simpl. split.
    + destruct (postMessage_fault E (ssrConfig_mesg (mesg_id mesg) cfg)
                  [default JUndef (cfg !! "body")]) as [e|]; [|done].
      eexists. split; [reflexivity|]. simpl.
      by rewrite err_mesg_id, err_mesg_type, err_mesg_err.
    + split; [|split; [|done]].
      * intros k v. apply ssrConfig_mesg_field.
      * intros k Hk Hid Hty. unfold ssrConfig_mesg.
        rewrite lookup_union_r by exact Hk. by simplify_map_eq.
  - split.
    { unfold try_post.
      by destruct (postMessage_fault E (noSsrConfig_mesg (mesg_id mesg)) []). }
    exists {| posted_mesg := noSsrConfig_mesg (mesg_id mesg);
              posted_transfer := [] |}.
    rewrite posts_try_post. simpl. split; [|done].
    destruct (postMessage_fault E (noSsrConfig_mesg (mesg_id mesg)) [])
      as [e|]; [|done].
    eexists. split; [reflexivity|]. simpl.
    by rewrite err_mesg_id, err_mesg_type, err_mesg_err.
  - split; [done|]. eexists. split; [reflexivity|]. simpl.
    by rewrite err_mesg_id, err_mesg_type, err_mesg_err.
Qed.

(** X5: the [ssrConfig] message can be taken apart again.  When the config
    object has no property [id] or [type], removing [id] and [type] from the
    message gives back the config object, and [id] reads as the request's
    id. *)
Theorem ssrConfig_mesg_round_trip (i : jsval) (cfg : gmap string jsval) :
  cfg !! "id" = None ->
  cfg !! "type" = None ->
  delete "id" (delete "type" (ssrConfig_mesg i cfg)) = cfg
  /\ ssrConfig_mesg i cfg !! "id" = Some i.
Proof.
  intros Hid Hty. split; [|by apply ssrConfig_mesg_id].
  apply map_eq. intros k.
  destruct (decide (k = "id")) as [->|Hk1].
  { by rewrite lookup_delete_eq, Hid. }
  rewrite lookup_delete_ne by done.
  destruct (decide (k = "type")) as [->|Hk2].
  { by rewrite lookup_delete_eq, Hty. }
  rewrite lookup_delete_ne by done.
  unfold ssrConfig_mesg. destruct (cfg !! k) as [v|] eqn:Hk.
  - by apply lookup_union_Some_l.
  - rewrite lookup_union_r by exact Hk. by simplify_map_eq.
Qed.

Lemma ssrConfig_mesg_round_trip_witness :
  let cfg : gmap string jsval :=
    {[ "input" := JStr "about"; "body" := JStream 3 ]} in
  delete "id" (delete "type" (ssrConfig_mesg (JNum 4) cfg)) = cfg
  /\ ssrConfig_mesg (JNum 4) cfg !! "id" = Some (JNum 4).
Proof.
  intros cfg. apply (ssrConfig_mesg_round_trip (JNum 4) cfg); reflexivity.
Defined.

(** ** Every [err] response of a render *)

(** X10: whatever sent control to the [catch] block of [handleRender], a
    rejected await, a throw of the post of [start] or a throw of
    [deepFreeze], every [err] message the handler posts has the request's
    [id], an [err] field, no transfer list, and a [statusCode] field exactly
    when the value in [err] exposes a [statusCode], with that value. *)
Theorem render_err_responses (E : Env) (w w' : Worker) (mesg : MessageReq) :
  Forall (fun p =>
            is_type "err" p = true ->
            posted_mesg p !! "id" = Some (mesg_id mesg)
            /\ posted_transfer p = []
            /\ exists e, posted_mesg p !! "err" = Some e
                 /\ posted_mesg p !! "statusCode" = statusCode_of e)
         (posts (handleRender E w mesg) w').
Proof.
  assert (Herr : forall e,
    is_type "err" (err_post (mesg_id mesg) e) = true ->
    posted_mesg (err_post (mesg_id mesg) e) !! "id" = Some (mesg_id mesg)
    /\ posted_transfer (err_post (mesg_id mesg) e) = []
    /\ exists e0, posted_mesg (err_post (mesg_id mesg) e) !! "err" = Some e0
         /\ posted_mesg (err_post (mesg_id mesg) e) !! "statusCode"
            = statusCode_of e0).
  { intros e _. simpl. rewrite err_mesg_id. split; [done|]. split; [done|].
    exists e. by rewrite err_mesg_err, err_mesg_statusCode. }
  rewrite handleRender_unfold, posts_app, posts_pipeline.
  apply Forall_app. split.
  - destruct (hasModuleIdCallback mesg); [|constructor].
    apply Forall_map, Forall_forall. intros m _ Hty.
    unfold is_type, moduleId_post in Hty. simpl in Hty.
    by rewrite moduleId_mesg_type in Hty.
  - destruct (render_outcome E w mesg) as [readable|err]; simpl.
    + rewrite app_nil_r.
      match goal with |- context [finish_posts ?a ?b ?c ?d ?e] =>
        destruct (finish_posts_shape a b c d e) as (rest & -> & Hrest) end.
      constructor.
      * intros Hty. by rewrite is_type_start_post in Hty.
      * destruct Hrest as [->|[e ->]]; [constructor|].
        constructor; [apply Herr|constructor].
    + constructor; [apply (Herr err)|constructor].
Qed.
